(** * The Cheshire Cat plugin registry (MadHatter) and its static-file guard

    A shallow embedding of [core/cat/mad_hatter/mad_hatter.py] and
    [core/cat/routes/static/auth_static.py], followed by the properties
    proved about them.

    Layout: first the embedding, one module per part of the code ([Py],
    [Hooks], [Settings], [Metadata], [AuthStatic], [Memory], [Tools],
    [Plugins]); then the vocabulary of the statements ([ToolsSpec],
    [MetadataSpec], [PluginsSpec], [SyncSpec]) and the sample inputs
    ([Samples], [SampleDisk], [MoreSamples]); then the properties.

    Conventions of the embedding.
    - A Python call either returns a value or raises: [outcome].
    - Calls to [log] are left out; where building the logged message can
      itself raise, that raise is kept.
    - Python objects that the code mutates in place ([CatTool.embedding])
      live in the list that holds them: a list position stands for the
      object's identity, and [self.tools] holds each tool object once.
    - Library calls, and code of the repository that is not part of the
      sources, are parameters of the sections that use them; the vector
      store is modelled from the collaborator contract of the
      specification. *)

From Stdlib Require Import Ascii String.
From stdpp Require Import gmap strings list fin_maps.

Local Set Warnings "-register-all".
Local Open Scope string_scope.
Local Open Scope list_scope.
Local Open Scope nat_scope.

(** ** Python values shared by all parts *)

Module Py.

(** The exception classes the embedded code can meet. *)
Inductive exn : Type :=
| Exception (msg : string)
| KeyError
| TypeError
| AttributeError
| IndexError
| AssertionError
| FileNotFoundError
| JSONDecodeError
| HTTPException (status : Z).

(** What a call does: hand back a value, or raise. *)
Inductive outcome (A : Type) : Type :=
| Returns (a : A)
| Raises (e : exn).

Arguments Returns {A} a.
Arguments Raises {A} e.

Definition is_return {A} (o : outcome A) : bool :=
  match o with Returns _ => true | Raises _ => false end.

(** What [json.load] produces.  Numbers are carried, never computed with. *)
Inductive json : Type :=
| JNull
| JBool (b : bool)
| JNum (z : Z)
| JStr (s : string)
| JArr (l : list json)
| JObj (m : gmap string json).

(** A file as the code sees it: [json.load] either rejects its content or
    yields a value.  A path without an entry is not a file. *)
Inductive file : Type :=
| Garbage
| Json (j : json).

(** [posixpath.join] for one more component. *)
Definition join2 (path b : string) : string :=
  if String.prefix "/" b then b
  else if bool_decide (path = "") || String.prefix "/" (String.rev path)
       then path +:+ b
       else path +:+ "/" +:+ b.

(** [os.path.join(a, *p)]. *)
Definition os_path_join (a : string) (p : list string) : string :=
  fold_left join2 p a.

End Py.

(** ** Hooks: [MadHatter.execute_hook] *)

Module Hooks.
Import Py.

(** The exception of the last line of [execute_hook]. *)
Definition not_present (name : string) : exn :=
  Exception ("Hook " +:+ name +:+ " not present in any plugin").

Section Model.
(** [Arg]: positional arguments; [Cat]: the host object [self.ccat];
    [R]: what a hook function returns. *)
Context {Arg Cat R : Type}.

(** A hook is the dict [{"hook_function", "hook_name", "priority"}] built by
    the [@hook] decorator.  Calling the function with positional arguments
    and [cat] either returns a value or raises: an exception of its body,
    or the [TypeError] of a call that does not fit its signature. *)
Record Hook : Type := {
  hook_name : string;
  priority : Z;
  hook_function : list Arg → Cat → outcome R;
}.

(** One call of a hook function with the positional arguments and
    [cat=self.ccat], recorded with the position in [self.hooks] of the hook
    that was called. *)
Record Invocation : Type := {
  inv_index : nat;
  inv_args : list Arg;
  inv_cat : Cat;
}.

(** The loop of [execute_hook], started at position [i] of [self.hooks].
    The call of the hook function is the operand of [return], with no
    [try] around it: [execute_hook] ends as that call ends. *)
Fixpoint execute_hook_from (i : nat) (hooks : list Hook) (ccat : Cat)
    (name : string) (args : list Arg) : list Invocation * outcome R :=
  match hooks with
  | [] => ([], Raises (not_present name))
  | h :: rest =>
      if bool_decide (name = hook_name h)
      then ([ {| inv_index := i; inv_args := args; inv_cat := ccat |} ],
            hook_function h args ccat)
      else execute_hook_from (S i) rest ccat name args
  end.

Definition execute_hook (hooks : list Hook) (ccat : Cat)
    (name : string) (args : list Arg) : list Invocation * outcome R :=
  execute_hook_from 0 hooks ccat name args.

(** Modelled from the spec: [CatHooks.sort_hooks], whose code is not part of
    the sources, leaves the hook list ordered by priority, highest first. *)
Definition sorted_by_priority (hooks : list Hook) : Prop :=
  ∀ (i j : nat) hi hj, (i ≤ j)%nat → hooks !! i = Some hi → hooks !! j = Some hj →
    (priority hj ≤ priority hi)%Z.

End Model.

Arguments Hook : clear implicits.
Arguments Invocation : clear implicits.

End Hooks.

(** ** Plugin settings: [get_plugin_settings], [save_plugin_settings] *)

Module Settings.
Import Py.

(** [key not in v]: dict keys, list elements, substrings; other values do
    not support the test. *)
Definition not_in (key : string) (v : json) : outcome bool :=
  match v with
  | JObj m => Returns (match m !! key with None => true | Some _ => false end)
  | JArr l =>
      Returns (negb (existsb
        (λ x, match x with JStr s => bool_decide (s = key) | _ => false end) l))
  | JStr s =>
      Returns (match String.index 0 key s with None => true | Some _ => false end)
  | _ => Raises TypeError
  end.

(** [v[key] = x] for a string key: only a dict takes it. *)
Definition setitem (v : json) (key : string) (x : json) : outcome json :=
  match v with
  | JObj m => Returns (JObj (<[key := x]> m))
  | _ => Raises TypeError
  end.

Definition settings_path (plugin_id : string) : string :=
  os_path_join "cat/plugins" [plugin_id; "settings.json"].

(** The [try] block of [get_plugin_settings]: the value bound to [settings]
    when the block is left, and how it is left. *)
Definition get_try (f : file) (settings : json) : json * outcome unit :=
  match f with
  | Garbage => (settings, Raises JSONDecodeError)
  | Json loaded =>
      match not_in "active" loaded with
      | Raises e => (loaded, Raises e)
      | Returns false => (loaded, Returns tt)
      | Returns true =>
          match setitem loaded "active" (JBool false) with
          | Raises e => (loaded, Raises e)
          | Returns settings' => (settings', Returns tt)
          end
      end
  end.

Definition get_plugin_settings (fs : gmap string file) (plugin_id : string)
    : outcome json :=
  let settings_file_path := settings_path plugin_id in
  let settings := JObj {[ "active" := JBool false ]} in
  match fs !! settings_file_path with
  | None => Returns settings
  | Some f =>
      match get_try f settings with
      | (settings, Returns _) => Returns settings
      | (settings, Raises _) => Returns settings
      end
  end.

(** [{**current_settings, **settings}]: the first operand must be a mapping;
    the items of the second are written over those of the first. *)
Definition merge (current_settings : json) (settings : gmap string json)
    : outcome (gmap string json) :=
  match current_settings with
  | JObj cur => Returns (settings ∪ cur)
  | _ => Raises TypeError
  end.

(** The [try] block of [save_plugin_settings]: the file system, the value
    bound to [updated_settings], and how the block is left.  A file that
    opens in mode [r+] opens for writing too, and a JSON value always
    serialises, so the write-back after a successful merge goes through. *)
Definition save_try (fs : gmap string file) (path : string)
    (settings : gmap string json)
    : gmap string file * gmap string json * outcome unit :=
  match fs !! path with
  | None => (fs, settings, Raises FileNotFoundError)
  | Some Garbage => (fs, settings, Raises JSONDecodeError)
  | Some (Json current_settings) =>
      match merge current_settings settings with
      | Raises e => (fs, settings, Raises e)
      | Returns updated_settings =>
          (<[path := Json (JObj updated_settings)]> fs, updated_settings,
           Returns tt)
      end
  end.

Definition save_plugin_settings (fs : gmap string file) (plugin_id : string)
    (settings : gmap string json) : gmap string file * outcome json :=
  let settings_file_path := settings_path plugin_id in
  match save_try fs settings_file_path settings with
  | (fs', updated_settings, Returns _) => (fs', Returns (JObj updated_settings))
  | (fs', updated_settings, Raises _) => (fs', Returns (JObj updated_settings))
  end.

End Settings.

(** ** Plugin metadata: [get_plugin_metadata] *)

Module Metadata.
Import Py.

(** [s.split(c)] for a one-character separator. *)
Fixpoint split_on (c : Ascii.ascii) (s : string) : list string :=
  match s with
  | EmptyString => [""]
  | String a rest =>
      if Ascii.eqb a c then "" :: split_on c rest
      else match split_on c rest with
           | w :: ws => String a w :: ws
           | [] => [String a ""]
           end
  end.

(** [posixpath.basename]: what follows the last slash. *)
Definition os_path_basename (p : string) : string :=
  List.last (split_on "/"%char p) "".

(** One round of the loop of [posixpath.normpath]; [new_comps] is kept with
    its last element first. *)
Definition normpath_step (initial_slashes : nat) (new_comps : list string)
    (comp : string) : list string :=
  if bool_decide (comp = "") || bool_decide (comp = ".") then new_comps
  else if negb (bool_decide (comp = ".."))
          || (bool_decide (initial_slashes = 0%nat) && bool_decide (new_comps = []))
          || match new_comps with
             | x :: _ => bool_decide (x = "..")
             | [] => false
             end
       then comp :: new_comps
       else List.tl new_comps.

(** [posixpath.normpath]. *)
Definition os_path_normpath (path : string) : string :=
  if bool_decide (path = "") then "."
  else
    let initial_slashes : nat :=
      if negb (String.prefix "/" path) then 0
      else if String.prefix "//" path && negb (String.prefix "///" path) then 2
      else 1 in
    let comps := rev (fold_left (normpath_step initial_slashes) (split_on "/"%char path) []) in
    let joined := String.concat "/" comps in
    let result := String.concat "" (replicate initial_slashes "/") +:+ joined in
    if bool_decide (result = "") then "." else result.

Section Model.
(** [cat.utils.to_camel_case] is not part of the sources. *)
Variable to_camel_case : string → string.

Definition plugin_json_metadata_file_name : string := "plugin.json".

Definition default_description : string :=
  "Description not found for this plugin. "
  +:+ "Please create a `" +:+ plugin_json_metadata_file_name +:+ "`"
  +:+ " in the plugin folder.".

(** [d.get(key, dflt)] on a dict. *)
Definition dict_get (d : gmap string json) (key : string) (dflt : json) : json :=
  default dflt (d !! key).

(** The value bound to [json_file_data] after the [if]/[try] block. *)
Definition load_descriptor (fs : gmap string file) (path : string) : json :=
  match fs !! path with
  | Some (Json loaded) => loaded
  | Some Garbage => JObj ∅
  | None => JObj ∅
  end.

Definition get_plugin_metadata (fs : gmap string file) (plugin_folder : string)
    : outcome (gmap string json) :=
  let plugin_id := os_path_basename (os_path_normpath plugin_folder) in
  let plugin_json_metadata_file_path :=
    os_path_join plugin_folder [plugin_json_metadata_file_name] in
  let meta : gmap string json := {[ "id" := JStr plugin_id ]} in
  match load_descriptor fs plugin_json_metadata_file_path with
  | JObj json_file_data =>
      let meta := <["name" :=
        dict_get json_file_data "name" (JStr (to_camel_case plugin_id))]> meta in
      let meta := <["description" :=
        dict_get json_file_data "description" (JStr default_description)]> meta in
      let meta := <["author_name" :=
        dict_get json_file_data "author_name" (JStr "Unknown author")]> meta in
      let meta := <["author_url" :=
        dict_get json_file_data "author_url" (JStr "")]> meta in
      let meta := <["plugin_url" :=
        dict_get json_file_data "plugin_url" (JStr "")]> meta in
      let meta := <["tags" :=
        dict_get json_file_data "tags" (JStr "unknown")]> meta in
      let meta := <["thumb" :=
        dict_get json_file_data "thumb" (JStr "")]> meta in
      let meta := <["version" :=
        dict_get json_file_data "version" (JStr "0.0.1")]> meta in
      Returns meta
  | _ =>
      (* a list, string, number or null has no attribute [get] *)
      Raises AttributeError
  end.

End Model.
End Metadata.

(** ** The guarded static-file application: [AuthStatic.__call__] *)

Module AuthStatic.
Import Py.

Section Model.
(** [Scope]: the ASGI connection scope.  The three collaborators are
    library or missing code: building the [Request] and reading its headers
    (as name/value pairs, names in lower case), [cat.api_auth.check_api_key],
    and [StaticFiles.__call__]. *)
Context {Scope : Type}.
Variable request_headers : Scope → outcome (list (string * string)).
Variable check_api_key : option string → outcome (option string).
Variable static_files_call : Scope → outcome unit.

(** The calls into collaborators that matter here. *)
Inductive event : Type :=
| CheckApiKey (key : option string)
| ServeStatic (scope : Scope).

(** [headers.get(key)]: the first value stored under [key], if any. *)
Fixpoint headers_get (headers : list (string * string)) (key : string)
    : option string :=
  match headers with
  | [] => None
  | (k, v) :: rest => if bool_decide (k = key) then Some v else headers_get rest key
  end.

Definition call (scope : Scope) : list event * outcome unit :=
  match request_headers scope with
  | Raises e => ([], Raises e)
  | Returns headers =>
      let key := headers_get headers "access_token" in
      match check_api_key key with
      | Raises e => ([CheckApiKey key], Raises e)
      | Returns _ =>
          ([CheckApiKey key; ServeStatic scope], static_files_call scope)
      end
  end.

End Model.
End AuthStatic.

(** ** The procedural memory collection *)

Module Memory.
Import Py.

(** An embedding; its coordinates are carried, never computed with. *)
Definition vector : Type := list Z.

(** The payload dict of a stored point, as [add_texts] writes it: the
    text under ["page_content"] and the metadata under ["metadata"].
    [page_content_item] is [None] when the dict has no ["page_content"]. *)
Record Payload : Type := {
  page_content_item : option string;
  metadata_item : gmap string json;
}.

(** A stored point.  [payload] is [None] when [record.payload] is [None]:
    the store keeps a point written without a payload that way. *)
Record Point : Type := {
  point_id : nat;
  point_vector : vector;
  payload : option Payload;
}.

(** The text [record.payload["page_content"]] evaluates to, if it does. *)
Definition page_content (record : Point) : option string :=
  payload record ≫= page_content_item.

(** The metadata of a point that has a payload. *)
Definition metadata (record : Point) : gmap string json :=
  from_option metadata_item ∅ (payload record).

(** What [record.payload["page_content"]] raises when it yields no text:
    [None] cannot be subscripted, and a dict without the key has no such
    item. *)
Definition subscript_error (record : Point) : exn :=
  match payload record with
  | None => TypeError
  | Some _ => KeyError
  end.

(** The calls made on the vector store. *)
Inductive call : Type :=
| GetAllPoints
| Delete (points_selector : list nat)
| AddTexts (texts : list string) (metadatas : list (gmap string json))
| Retrieve (ids : list nat).

Section Store.
(** The embedder behind the collection. *)
Variable embed : string → vector.

(** Modelled from the spec: the vector store, whose code is not part of the
    sources.  [listAll] hands back every stored record. *)
Definition get_all_points (store : list Point) : list Point := store.

(** Modelled from the spec: [deleteMany] drops the records with the given
    ids. *)
Definition delete (points_selector : list nat) (store : list Point)
    : list Point :=
  filter (λ p, point_id p ∉ points_selector) store.

(** An id no stored record has. *)
Definition fresh_id (store : list Point) : nat :=
  S (max_list (point_id <$> store)).

(** Modelled from the spec: [addTexts] embeds one text, stores it under a
    new id with its metadata, and answers the id. *)
Definition add_text (text : string) (meta : gmap string json)
    (store : list Point) : list nat * list Point :=
  let id := fresh_id store in
  ([id], store ++ [ {| point_id := id; point_vector := embed text;
                       payload := Some {| page_content_item := Some text;
                                          metadata_item := meta |} |} ]).

(** Modelled from the spec: [retrieveWithVectors] answers the stored records
    that carry one of the given ids. *)
Definition retrieve (ids : list nat) (store : list Point) : list Point :=
  filter (λ p, point_id p ∈ ids) store.

End Store.
End Memory.

(** ** Tools and their embeddings: [MadHatter.embed_tools] *)

Module Tools.
Import Py Memory.

(** A [CatTool] as far as [embed_tools] reads and writes it. *)
Record CatTool : Type := {
  name : string;
  description : string;
  docstring : string;
  embedding : option vector;
}.

Definition set_embedding (v : option vector) (t : CatTool) : CatTool :=
  {| name := name t; description := description t;
     docstring := docstring t; embedding := v |}.

(** Python's truth value of [tool.embedding]: [None] and the empty list are
    false. *)
Definition truthy (e : option vector) : bool :=
  match e with
  | Some (_ :: _) => true
  | Some [] => false
  | None => false
  end.

(** What [embed_tools] reads and changes: [self.tools], the procedural
    collection, and the calls made on the store so far, oldest first. *)
Record State : Type := {
  tools : list CatTool;
  procedural : list Point;
  calls : list call;
}.

(** [{t.description: t for t in self.tools}], each tool given by its
    position in [self.tools]; a later tool replaces an earlier one with the
    same description. *)
Fixpoint index_from (i : nat) (ts : list CatTool) (idx : gmap string nat)
    : gmap string nat :=
  match ts with
  | [] => idx
  | t :: rest => index_from (S i) rest (<[description t := i]> idx)
  end.

Definition plugins_tools_index (ts : list CatTool) : gmap string nat :=
  index_from 0 ts ∅.

(** The loop over the stored records.  On a record without a text under
    [page_content] the subscript raises inside [try]; the handler evaluates
    the same subscript for its log message before it marks the record, so
    it raises the same error again, and that error leaves the loop. *)
Fixpoint loop_records (idx : gmap string nat) (records : list Point)
    (ts : list CatTool) (points_to_be_deleted : list nat)
    : list CatTool * list nat * outcome unit :=
  match records with
  | [] => (ts, points_to_be_deleted, Returns tt)
  | record :: rest =>
      match page_content record with
      | None => (ts, points_to_be_deleted, Raises (subscript_error record))
      | Some tool_description =>
          match idx !! tool_description with
          | Some i =>
              loop_records idx rest
                (alter (set_embedding (Some (point_vector record))) i ts)
                points_to_be_deleted
          | None =>
              loop_records idx rest ts
                (points_to_be_deleted ++ [point_id record])
          end
      end
  end.

Section Model.
Variable embed : string → vector.
(** The value of [time.time()]. *)
Variable now : Z.

Definition tool_metadata (tool : CatTool) : gmap string json :=
  {[ "source" := JStr "tool"; "when" := JNum now;
     "name" := JStr (name tool); "docstring" := JStr (docstring tool) ]}.

(** The loop over [self.tools]. *)
Fixpoint loop_tools (ts : list CatTool) (store : list Point) (cs : list call)
    : list CatTool * list Point * list call * outcome unit :=
  match ts with
  | [] => ([], store, cs, Returns tt)
  | tool :: rest =>
      if truthy (embedding tool)
      then
        let '(rest', store', cs', o) := loop_tools rest store cs in
        (tool :: rest', store', cs', o)
      else
        let metadatas := [tool_metadata tool] in
        let '(ids_inserted, store1) :=
          add_text embed (description tool) (tool_metadata tool) store in
        let cs1 := cs ++ [AddTexts [description tool] metadatas] in
        let records_inserted := retrieve ids_inserted store1 in
        let cs2 := cs1 ++ [Retrieve ids_inserted] in
        match records_inserted with
        | [] => (tool :: rest, store1, cs2, Raises IndexError)
        | r :: _ =>
            let '(rest', store', cs', o) := loop_tools rest store1 cs2 in
            (set_embedding (Some (point_vector r)) tool :: rest', store', cs', o)
        end
  end.

Definition embed_tools (st : State) : State * outcome unit :=
  let all_tools_points := get_all_points (procedural st) in
  let cs0 := calls st ++ [GetAllPoints] in
  let idx := plugins_tools_index (tools st) in
  match loop_records idx all_tools_points (tools st) [] with
  | (ts1, _, Raises e) =>
      ({| tools := ts1; procedural := procedural st; calls := cs0 |}, Raises e)
  | (ts1, points_to_be_deleted, Returns _) =>
      let '(store1, cs1) :=
        if bool_decide (0 < length points_to_be_deleted)%nat
        then (delete points_to_be_deleted (procedural st),
              cs0 ++ [Delete points_to_be_deleted])
        else (procedural st, cs0) in
      let '(ts2, store2, cs2, o) := loop_tools ts1 store1 cs1 in
      ({| tools := ts2; procedural := store2; calls := cs2 |}, o)
  end.

End Model.
End Tools.

(** ** Scanning and removing plugins: [find_plugins], [uninstall_plugin] *)

Module Plugins.
Import Py Memory Tools.

(** [s.replace(old, new)] for a non-empty [old]; [skip] counts the
    characters of a match that are still to be passed over. *)
Fixpoint replace_go (old new : string) (skip : nat) (s : string) : string :=
  match s with
  | EmptyString => EmptyString
  | String c rest =>
      match skip with
      | S n => replace_go old new n rest
      | O =>
          if String.prefix old s
          then new +:+ replace_go old new (String.length old - 1) rest
          else String c (replace_go old new 0 rest)
      end
  end.

Definition str_replace (s old new : string) : string := replace_go old new 0 s.

(** The module name [find_plugin] derives from a file path. *)
Definition module_name (py_file : string) : string :=
  str_replace (str_replace py_file "/" ".") ".py" "".

(** [len([plugin for plugin in self.plugins if plugin["id"] == plugin_id]) > 0];
    reading ["id"] in a dict without it raises. *)
Fixpoint found_plugins (plugins : list (gmap string json)) (plugin_id : string)
    : outcome (list (gmap string json)) :=
  match plugins with
  | [] => Returns []
  | plugin :: rest =>
      match plugin !! "id" with
      | None => Raises KeyError
      | Some v =>
          let keep := match v with
                      | JStr s => bool_decide (s = plugin_id)
                      | _ => false
                      end in
          match found_plugins rest plugin_id with
          | Raises e => Raises e
          | Returns found => Returns (if keep then plugin :: found else found)
          end
      end
  end.

Definition plugin_exists (plugins : list (gmap string json)) (plugin_id : string)
    : outcome bool :=
  match found_plugins plugins plugin_id with
  | Raises e => Raises e
  | Returns found => Returns (bool_decide (0 < length found))
  end.

Section Model.
(** [Disk]: the file system; [Interp]: the interpreter's loaded modules and
    the class-level registry of [CatHooks]; [Hook], [Cat]: hooks and the
    host object, which this part only passes along. *)
Context {Disk Interp Hook Cat : Type}.

(** Library code, and code of the repository that is not part of the
    sources: [shutil.rmtree]; [glob.glob]; the files as [os.path.isfile],
    [open] and [json.load] see them;
    [getmembers(importlib.import_module(name), is_cat_tool)];
    [CatHooks.sort_hooks]; [CatTool.augment_tool];
    [ccat.get_plugin_path()]; [to_camel_case]; the embedder; the clock. *)
Variable rmtree : string → Disk → outcome Disk.
Variable glob : Disk → string → list string.
Variable files : Disk → gmap string file.
Variable import_tools : Disk → string → Interp → outcome (list (string * CatTool)) * Interp.
Variable sort_hooks : Interp → list Hook * Interp.
Variable augment_tool : Cat → CatTool → CatTool.
Variable get_plugin_path : string.
Variable to_camel_case : string → string.
Variable embed : string → vector.
Variable now : Z.

(** The attributes [find_plugins] assigns. *)
Record MadHatter : Type := {
  hooks : list Hook;
  mh_tools : list CatTool;
  plugins : list (gmap string json);
}.

Record World : Type := {
  mad_hatter : MadHatter;
  ccat : Cat;
  disk : Disk;
  interp : Interp;
  memory : list Point;
  store_calls : list call;
}.

(** The loop of [find_plugin] over the source files of one folder. *)
Fixpoint import_all (d : Disk) (py_files : list string) (it : Interp)
    (plugin_tools : list (string * CatTool))
    : outcome (list (string * CatTool)) * Interp :=
  match py_files with
  | [] => (Returns plugin_tools, it)
  | py_file :: rest =>
      let plugin_name := module_name py_file in
      match import_tools d plugin_name it with
      | (Raises e, it') => (Raises e, it')
      | (Returns members, it') => import_all d rest it' (plugin_tools ++ members)
      end
  end.

Definition find_plugin (d : Disk) (folder : string) (it : Interp)
    : outcome (option (gmap string json) * list (string * CatTool)) * Interp :=
  let py_files_path := os_path_join folder ["**/*.py"] in
  let py_files := glob d py_files_path in
  if bool_decide (0 < length py_files)
  then
    match Metadata.get_plugin_metadata to_camel_case (files d) folder with
    | Raises e => (Raises e, it)
    | Returns plugin_info =>
        match import_all d py_files it [] with
        | (Raises e, it') => (Raises e, it')
        | (Returns plugin_tools, it') =>
            (Returns (Some plugin_info, plugin_tools), it')
        end
    end
  else (Returns (None, []), it).

(** The loop of [find_plugins] over the plugin folders.  A metadata dict is
    never empty, so [if plugin_info] asks whether there is one. *)
Fixpoint scan_folders (d : Disk) (plugin_folders : list string) (it : Interp)
    (all_plugins : list (gmap string json))
    (all_tools : list (string * CatTool))
    : outcome (list (gmap string json) * list (string * CatTool)) * Interp :=
  match plugin_folders with
  | [] => (Returns (all_plugins, all_tools), it)
  | folder :: rest =>
      match find_plugin d folder it with
      | (Raises e, it') => (Raises e, it')
      | (Returns (plugin_info, plugin_tools), it') =>
          let all_plugins' :=
            match plugin_info with
            | Some info => all_plugins ++ [info]
            | None => all_plugins
            end in
          scan_folders d rest it' all_plugins' (all_tools ++ plugin_tools)
      end
  end.

(** The loop that logs ["> " + plugin["name"]]: the concatenation needs a
    string.  (The hook names logged next are function names, hence strings.) *)
Fixpoint log_plugin_names (all_plugins : list (gmap string json))
    : outcome unit :=
  match all_plugins with
  | [] => Returns tt
  | plugin :: rest =>
      match plugin !! "name" with
      | None => Raises KeyError
      | Some (JStr _) => log_plugin_names rest
      | Some _ => Raises TypeError
      end
  end.

Definition with_disk (w : World) (d : Disk) : World :=
  {| mad_hatter := mad_hatter w; ccat := ccat w; disk := d;
     interp := interp w; memory := memory w; store_calls := store_calls w |}.

Definition with_interp (w : World) (it : Interp) : World :=
  {| mad_hatter := mad_hatter w; ccat := ccat w; disk := disk w;
     interp := it; memory := memory w; store_calls := store_calls w |}.

Definition find_plugins (w : World) : World * outcome unit :=
  let core_folder := "cat/mad_hatter/core_plugin/" in
  let plugin_folders := core_folder :: glob (disk w) "cat/plugins/*/" in
  match scan_folders (disk w) plugin_folders (interp w) [] [] with
  | (Raises e, it') => (with_interp w it', Raises e)
  | (Returns (all_plugins, all_tools), it') =>
      match log_plugin_names all_plugins with
      | Raises e => (with_interp w it', Raises e)
      | Returns _ =>
          let '(all_hooks, it'') := sort_hooks it' in
          let all_tools_fixed := (λ t, augment_tool (ccat w) t.2) <$> all_tools in
          ({| mad_hatter := {| hooks := all_hooks; mh_tools := all_tools_fixed;
                               plugins := all_plugins |};
              ccat := ccat w; disk := disk w; interp := it'';
              memory := memory w; store_calls := store_calls w |},
           Returns tt)
      end
  end.

(** [self.embed_tools()] on the world. *)
Definition embed_tools (w : World) : World * outcome unit :=
  let '(st, o) :=
    Tools.embed_tools embed now
      {| tools := mh_tools (mad_hatter w); procedural := memory w;
         calls := store_calls w |} in
  ({| mad_hatter := {| hooks := hooks (mad_hatter w); mh_tools := tools st;
                       plugins := plugins (mad_hatter w) |};
      ccat := ccat w; disk := disk w; interp := interp w;
      memory := procedural st; store_calls := calls st |},
   o).

Definition uninstall_plugin (w : World) (plugin_id : string)
    : World * outcome unit :=
  match rmtree (get_plugin_path +:+ plugin_id) (disk w) with
  | Raises e => (w, Raises e)
  | Returns d' =>
      match find_plugins (with_disk w d') with
      | (w2, Raises e) => (w2, Raises e)
      | (w2, Returns _) => embed_tools w2
      end
  end.

End Model.

Arguments MadHatter : clear implicits.
Arguments World : clear implicits.

End Plugins.

(** ** Vocabulary for the properties of [embed_tools] *)

Module ToolsSpec.
Import Py Memory Tools.

(** The position in [self.tools] of the tool a record is matched with. *)
Definition target (idx : gmap string nat) (r : Point) : option nat :=
  page_content r ≫= (idx !!.).

(** A record is stale when it has a description that the index lacks. *)
Definition stale (idx : gmap string nat) (r : Point) : bool :=
  match page_content r with
  | Some d => match idx !! d with None => true | Some _ => false end
  | None => false
  end.

(** A record whose description is that of no current tool. *)
Definition matches_no_tool (ts : list CatTool) (r : Point) : bool :=
  match page_content r with
  | Some d => bool_decide (d ∉ description <$> ts)
  | None => false
  end.

(** Writing a vector, if there is one, into a tool. *)
Definition assign (v : option vector) (t : CatTool) : CatTool :=
  match v with
  | Some x => set_embedding (Some x) t
  | None => t
  end.

(** The vector of the last record matched with position [k]. *)
Fixpoint last_assigned (idx : gmap string nat) (records : list Point)
    (k : nat) : option vector :=
  match records with
  | [] => None
  | r :: rest =>
      match last_assigned idx rest k with
      | Some v => Some v
      | None =>
          if bool_decide (target idx r = Some k)
          then Some (point_vector r) else None
      end
  end.

(** The records up to the first one without [page_content]. *)
Fixpoint good_prefix (records : list Point) : list Point :=
  match records with
  | [] => []
  | r :: rest =>
      match page_content r with
      | Some _ => r :: good_prefix rest
      | None => []
      end
  end.

(** Every record has a [page_content]. *)
Definition all_good (records : list Point) : bool :=
  forallb (λ r, match page_content r with Some _ => true | None => false end)
    records.

(** The first record without [page_content], if there is one. *)
Fixpoint first_bad (records : list Point) : option Point :=
  match records with
  | [] => None
  | r :: rest =>
      match page_content r with
      | Some _ => first_bad rest
      | None => Some r
      end
  end.

(** How the loop over the records ends. *)
Definition records_outcome (records : list Point) : outcome unit :=
  match first_bad records with
  | None => Returns tt
  | Some r => Raises (subscript_error r)
  end.

Definition is_delete (c : call) : bool :=
  match c with Delete _ => true | _ => false end.

Section WithEmbedder.
Variable embed : string → vector.
Variable now : Z.

(** What the loop over the tools leaves of one tool. *)
Definition finish (t : CatTool) : CatTool :=
  if truthy (embedding t) then t
  else set_embedding (Some (embed (description t))) t.

Definition new_point (t : CatTool) (store : list Point) : Point :=
  {| point_id := fresh_id store; point_vector := embed (description t);
     payload := Some {| page_content_item := Some (description t);
                        metadata_item := tool_metadata now t |} |}.

(** The records the loop over the tools adds to the store. *)
Fixpoint new_points (ts : list CatTool) (store : list Point) : list Point :=
  match ts with
  | [] => []
  | t :: rest =>
      if truthy (embedding t) then new_points rest store
      else new_point t store :: new_points rest (store ++ [new_point t store])
  end.

(** The calls the loop over the tools makes. *)
Fixpoint new_calls (ts : list CatTool) (store : list Point) : list call :=
  match ts with
  | [] => []
  | t :: rest =>
      if truthy (embedding t) then new_calls rest store
      else AddTexts [description t] [tool_metadata now t]
           :: Retrieve [fresh_id store]
           :: new_calls rest (store ++ [new_point t store])
  end.

End WithEmbedder.
End ToolsSpec.

(** ** Sample inputs *)

Module Samples.
Import Py Memory Tools.

(** Three hooks, sorted by priority; two share a name. *)
Definition greeting_hooks : list (Hooks.Hook string unit string) :=
  [ {| Hooks.hook_name := "before_cat_reads_message"; Hooks.priority := 2;
       Hooks.hook_function := λ args _, Returns (String.concat "," args) |};
    {| Hooks.hook_name := "agent_prompt_prefix"; Hooks.priority := 1;
       Hooks.hook_function := λ _ _, Returns "plugin" |};
    {| Hooks.hook_name := "agent_prompt_prefix"; Hooks.priority := 0;
       Hooks.hook_function := λ _ _, Returns "core" |} ].

(** One hook, written to take no positional argument: a call that passes
    one does not fit its signature. *)
Definition strict_hooks : list (Hooks.Hook string unit string) :=
  [ {| Hooks.hook_name := "agent_prompt_prefix"; Hooks.priority := 1;
       Hooks.hook_function := λ args _,
         match args with
         | [] => Returns "You are the Cheshire Cat"
         | _ :: _ => Raises TypeError
         end |} ].

(** The settings example of the specification. *)
Definition stored_settings : gmap string json :=
  {[ "active" := JBool true; "x" := JNum 1 ]}.
Definition payload_settings : gmap string json := {[ "x" := JNum 2 ]}.
Definition merged_settings : gmap string json :=
  {[ "active" := JBool true; "x" := JNum 2 ]}.
Definition settings_disk : gmap string file :=
  {[ "cat/plugins/foo/settings.json" := Json (JObj stored_settings) ]}.

(** An embedder that answers the same one-coordinate vector for every text. *)
Definition unit_embed (text : string) : vector := [1%Z].

Definition search_web : CatTool :=
  {| name := "search_web"; description := "search_web(query) - search the web";
     docstring := "search the web"; embedding := None |}.

Definition get_time : CatTool :=
  {| name := "get_time"; description := "get_time() - tell the time";
     docstring := "tell the time"; embedding := None |}.

(** A second tool with the description of [search_web], already embedded. *)
Definition search_web_twin : CatTool :=
  {| name := "search_web"; description := "search_web(query) - search the web";
     docstring := "search the web"; embedding := Some [7%Z] |}.

Definition point (id : nat) (v : vector) (text : string) : Point :=
  {| point_id := id; point_vector := v;
     payload := Some {| page_content_item := Some text; metadata_item := ∅ |} |}.

(** One record for [get_time] and one for a tool that is gone. *)
Definition synced_once : State :=
  {| tools := [search_web; get_time];
     procedural := [ point 1 [3%Z] "get_time() - tell the time";
                     point 2 [4%Z] "old_tool() - no longer there" ];
     calls := [] |}.

(** Two stored records with the description of the only tool. *)
Definition doubled_record : State :=
  {| tools := [search_web];
     procedural := [ point 1 [9%Z] "search_web(query) - search the web";
                     point 2 [8%Z] "search_web(query) - search the web" ];
     calls := [] |}.

(** A record that lacks the text: its payload has no ["page_content"]. *)
Definition untitled_point (id : nat) (v : vector) : Point :=
  {| point_id := id; point_vector := v;
     payload := Some {| page_content_item := None; metadata_item := ∅ |} |}.

(** A record stored without a payload. *)
Definition bare_point (id : nat) (v : vector) : Point :=
  {| point_id := id; point_vector := v; payload := None |}.

(** One tool; a record of a tool that is gone, then a record without
    ["page_content"]. *)
Definition stale_then_untitled : State :=
  {| tools := [search_web];
     procedural := [ point 1 [4%Z] "old_tool() - no longer there";
                     untitled_point 2 [5%Z] ];
     calls := [] |}.

(** The same, the second record being one without a payload. *)
Definition stale_then_bare : State :=
  {| tools := [search_web];
     procedural := [ point 1 [4%Z] "old_tool() - no longer there";
                     bare_point 2 [5%Z] ];
     calls := [] |}.

(** Two tools with one description, the second embedded, nothing stored. *)
Definition twin_tools : State :=
  {| tools := [search_web; search_web_twin]; procedural := []; calls := [] |}.

(** Two tools with one description, neither embedded, and one record
    stored under that description with a vector of an earlier embedder. *)
Definition twin_tools_stored : State :=
  {| tools := [search_web; search_web];
     procedural := [ point 1 [9%Z] "search_web(query) - search the web" ];
     calls := [] |}.

End Samples.


(** ** A sample disk *)

Module SampleDisk.
Import Py Memory Tools Plugins.

(** A disk as the directories it holds, each with the source files below
    it; no JSON files, no tools, no hooks. *)
Definition Disk : Type := list (string * list string).

Definition is_dir (d : Disk) (path : string) : bool :=
  bool_decide (path ∈ d.*1).

Definition rmtree (path : string) (d : Disk) : outcome Disk :=
  if is_dir d path then Returns (filter (λ entry, entry.1 ≠ path) d)
  else Raises FileNotFoundError.

Definition glob (d : Disk) (pattern : string) : list string :=
  if bool_decide (pattern = "cat/plugins/*/")
  then (λ entry, entry.1 +:+ "/")
         <$> filter (λ entry, String.prefix "cat/plugins/" entry.1) d
  else mjoin ((λ entry, if bool_decide (pattern = entry.1 +:+ "/**/*.py")
                        then entry.2 else []) <$> d).

Definition files (d : Disk) : gmap string file := ∅.

Definition import_tools (d : Disk) (module : string) (it : unit)
    : outcome (list (string * CatTool)) * unit :=
  (Returns [], it).

Definition sort_hooks (it : unit) : list unit * unit := ([], it).

Definition augment_tool (ccat : unit) (t : CatTool) : CatTool := t.

Definition camel (s : string) : string := s.

(** The built-in plugin, and a directory [foo] without source files. *)
Definition disk0 : Disk :=
  [ ("cat/mad_hatter/core_plugin", ["cat/mad_hatter/core_plugin/hooks/flow.py"]);
    ("cat/plugins/foo", []) ].

Definition blank : World Disk unit unit unit :=
  {| mad_hatter := {| hooks := []; mh_tools := []; plugins := [] |};
     ccat := tt; disk := disk0; interp := tt; memory := []; store_calls := [] |}.

(** The world after the first scan of [disk0]. *)
Definition scanned : World Disk unit unit unit :=
  (find_plugins glob files import_tools sort_hooks augment_tool camel blank).1.

Definition uninstall (w : World Disk unit unit unit) (plugin_id : string)
    : World Disk unit unit unit * outcome unit :=
  uninstall_plugin rmtree glob files import_tools sort_hooks augment_tool
    "cat/plugins/" camel Samples.unit_embed 0 w plugin_id.

End SampleDisk.


(** ** Vocabulary for the further properties *)

Module MetadataSpec.

(** The fields [get_plugin_metadata] reads from the descriptor. *)
Definition descriptor_fields : list string :=
  ["name"; "description"; "author_name"; "author_url"; "plugin_url"; "tags";
   "thumb"; "version"].

End MetadataSpec.

Module PluginsSpec.
Import Py.

(** A plugin dict whose ["id"] is the given string. *)
Definition has_id (plugin_id : string) (plugin : gmap string json) : bool :=
  match plugin !! "id" with
  | Some (JStr s) => bool_decide (s = plugin_id)
  | _ => false
  end.

End PluginsSpec.

Module SyncSpec.
Import Memory Tools.

(** The states on which a sync leaves one record for each tool: tools
    with pairwise distinct descriptions; records with pairwise distinct
    ids and descriptions, each with a description and a non-empty vector;
    and a stored record for every tool that has a usable embedding. *)
Definition well_kept (st : State) : Prop :=
  NoDup (description <$> tools st)
  ∧ NoDup (point_id <$> procedural st)
  ∧ NoDup (page_content <$> procedural st)
  ∧ Forall (λ r, is_Some (page_content r) ∧ point_vector r ≠ [])
      (procedural st)
  ∧ Forall (λ t, truthy (embedding t) →
                 Some (description t) ∈ page_content <$> procedural st)
      (tools st).

End SyncSpec.

(** ** More sample inputs *)

Module MoreSamples.
Import Py Memory Tools Samples.

Definition switch_off : gmap string json := {[ "active" := JBool false ]}.

(** A settings file that holds a JSON list. *)
Definition list_settings_disk : gmap string file :=
  {[ "cat/plugins/foo/settings.json" := Json (JArr [JNum 1]) ]}.

(** A descriptor that names the plugin, gives a list of tags, and has an
    ["id"] and a ["license"] of its own. *)
Definition foo_descriptor : gmap string json :=
  {[ "name" := JStr "Foo plugin"; "tags" := JArr [JStr "demo"];
     "id" := JStr "bar"; "license" := JStr "MIT" ]}.

(** A plugin folder [foo] with that descriptor. *)
Definition described_disk : gmap string file :=
  {[ "cat/plugins/foo/plugin.json" := Json (JObj foo_descriptor) ]}.

(** The records of [synced_once], and no tool. *)
Definition no_tools : State :=
  {| tools := []; procedural := procedural synced_once; calls := [] |}.

(** Two tools, neither embedded, and an empty collection. *)
Definition fresh_start : State :=
  {| tools := [search_web; get_time]; procedural := []; calls := [] |}.

End MoreSamples.


(** * Properties *)

(** ** Hook dispatch *)

Section HookFacts.
Import Py Hooks.
Context {Arg Cat R : Type}.
Implicit Types (hooks : list (Hook Arg Cat R)) (ccat : Cat) (name : string)
  (args : list Arg).

(** The loop either stops at the first hook bearing the name, and ends as
    the call of its function ends, or runs off the end of the list. *)
Lemma execute_hook_from_cases i hooks ccat name args :
  (Forall (λ h, hook_name h ≠ name) hooks ∧
   execute_hook_from i hooks ccat name args = ([], Raises (not_present name)))
  ∨
  (∃ k h, hooks !! k = Some h ∧ hook_name h = name ∧
     Forall (λ h', hook_name h' ≠ name) (take k hooks) ∧
     execute_hook_from i hooks ccat name args =
       ([ {| inv_index := i + k; inv_args := args; inv_cat := ccat |} ],
        hook_function h args ccat)).
Proof.
  revert i. induction hooks as [|h rest IH]; intros i; simpl.
  - left. split; [constructor | reflexivity].
  - case_bool_decide as Hname.
    + right. exists 0, h. rewrite Nat.add_0_r. simpl.
      repeat split; [done | constructor].
    + destruct (IH (S i)) as [[Hall Hrun] | (k & h' & Hk & Hn & Hbefore & Hrun)].
      * left. split; [constructor; [congruence | done] | done].
      * right. exists (S k), h'. simpl.
        replace (i + S k) with (S i + k) by lia.
        repeat split; [done | done | constructor; [congruence | done] | done].
Qed.

(** C3, as amended: when no registered hook has the requested name,
    [execute_hook] raises the "not present in any plugin" exception.  When
    one has, it ends as the call of the first such hook's function ends:
    with that call's value if it returns, with that call's exception if it
    raises.  So a value that is returned is the result of a hook of that
    name, never a default, and an exception is either the "not present"
    one, no hook bearing the name, or the one a hook of that name raised. *)
Theorem execute_hook_ends_as_first_match hooks ccat name args :
  let result := (execute_hook hooks ccat name args).2 in
  ((∀ h, h ∈ hooks → hook_name h ≠ name) → result = Raises (not_present name))
  ∧ ((∃ h, h ∈ hooks ∧ hook_name h = name) →
     ∃ k h, hooks !! k = Some h ∧ hook_name h = name
       ∧ (∀ j h', j < k → hooks !! j = Some h' → hook_name h' ≠ name)
       ∧ result = hook_function h args ccat)
  ∧ (∀ v, result = Returns v →
     ∃ h, h ∈ hooks ∧ hook_name h = name
       ∧ hook_function h args ccat = Returns v)
  ∧ (∀ e, result = Raises e →
     ((∀ h, h ∈ hooks → hook_name h ≠ name) ∧ e = not_present name)
     ∨ (∃ h, h ∈ hooks ∧ hook_name h = name
          ∧ hook_function h args ccat = Raises e)).
Proof.
  unfold execute_hook; simpl.
  destruct (execute_hook_from_cases 0 hooks ccat name args)
    as [[Hall Hrun] | (k & h & Hk & Hn & Hbefore & Hrun)]; rewrite Hrun; simpl.
  - rewrite Forall_forall in Hall. split; [done|]. split; [|split].
    + intros (h & Hin & Hn). destruct (Hall h Hin Hn).
    + intros v Hv. discriminate Hv.
    + intros e [= <-]. left. split; [exact Hall | reflexivity].
  - assert (h ∈ hooks) as Hin by (eapply list_elem_of_lookup_2; eauto).
    split; [|split; [|split]].
    + intros Hall. destruct (Hall h Hin Hn).
    + intros _. exists k, h. split; [done|]. split; [done|]. split; [|done].
      intros j h' Hj Hlook. rewrite Forall_forall in Hbefore. apply Hbefore.
      eapply list_elem_of_lookup_2. rewrite lookup_take_lt; eauto.
    + intros v Hv. exists h. auto.
    + intros e He. right. exists h. auto.
Qed.

(** C4: when a hook with the requested name is registered, [execute_hook]
    calls one hook function and no other: that of the first hook in
    [self.hooks] bearing the name, which has the highest priority among
    those bearing it when the list is sorted by priority.  The call gets
    the positional arguments as given and [self.ccat] as [cat], and
    [execute_hook] ends as the call does: what the call returns is what
    [execute_hook] returns. *)
Theorem execute_hook_calls_first_match hooks ccat name args :
  (∃ h, h ∈ hooks ∧ hook_name h = name) →
  ∃ k h, hooks !! k = Some h ∧ hook_name h = name
    ∧ (∀ j h', j < k → hooks !! j = Some h' → hook_name h' ≠ name)
    ∧ (sorted_by_priority hooks →
       ∀ h', h' ∈ hooks → hook_name h' = name → (priority h' ≤ priority h)%Z)
    ∧ execute_hook hooks ccat name args =
        ([ {| inv_index := k; inv_args := args; inv_cat := ccat |} ],
         hook_function h args ccat)
    ∧ (∀ v, hook_function h args ccat = Returns v →
       (execute_hook hooks ccat name args).2 = Returns v).
Proof.
  intros (h0 & Hin0 & Hn0). unfold execute_hook.
  destruct (execute_hook_from_cases 0 hooks ccat name args)
    as [[Hall _] | (k & h & Hk & Hn & Hbefore & Hrun)].
  { rewrite Forall_forall in Hall. destruct (Hall h0 Hin0 Hn0). }
  assert (∀ j h', j < k → hooks !! j = Some h' → hook_name h' ≠ name) as Hfirst.
  { intros j h' Hj Hlook. rewrite Forall_forall in Hbefore. apply Hbefore.
    eapply list_elem_of_lookup_2. rewrite lookup_take_lt; eauto. }
  exists k, h. split; [done|]. split; [done|]. split; [done|].
  split; [|split; [done|]].
  - intros Hsorted h' Hin' Hn'.
    apply list_elem_of_lookup_1 in Hin' as [j Hj].
    destruct (decide (j < k)) as [Hlt | Hge].
    + destruct (Hfirst j h' Hlt Hj Hn').
    + apply (Hsorted k j); [lia | done | done].
  - intros v Hv. rewrite Hrun. exact Hv.
Qed.

End HookFacts.

Section HookWitness.
Import Py Hooks Samples.

Lemma execute_hook_calls_first_match_witness :
  ∃ k h, greeting_hooks !! k = Some h ∧ hook_name h = "agent_prompt_prefix"
    ∧ (∀ j h', j < k → greeting_hooks !! j = Some h' →
         hook_name h' ≠ "agent_prompt_prefix")
    ∧ (sorted_by_priority greeting_hooks →
       ∀ h', h' ∈ greeting_hooks → hook_name h' = "agent_prompt_prefix" →
         (priority h' ≤ priority h)%Z)
    ∧ execute_hook greeting_hooks tt "agent_prompt_prefix" ["hello"] =
        ([ {| inv_index := k; inv_args := ["hello"]; inv_cat := tt |} ],
         hook_function h ["hello"] tt)
    ∧ (∀ v, hook_function h ["hello"] tt = Returns v →
       (execute_hook greeting_hooks tt "agent_prompt_prefix" ["hello"]).2
         = Returns v).
Proof.
  apply (execute_hook_calls_first_match greeting_hooks tt "agent_prompt_prefix" ["hello"]).
  eexists. split; [apply list_elem_of_lookup_2 with 1; reflexivity | reflexivity].
Defined.

(** C3 fails as stated: a hook named [agent_prompt_prefix] is registered,
    yet [execute_hook] raises, with the [TypeError] of the call of that
    hook's function, to which one positional argument too many was
    passed. *)
Lemma execute_hook_raises_counterexample :
  (∃ h, h ∈ strict_hooks ∧ hook_name h = "agent_prompt_prefix")
  ∧ (execute_hook strict_hooks tt "agent_prompt_prefix" ["hello"]).2
    = Raises TypeError
  ∧ ¬ ((∃ e, (execute_hook strict_hooks tt "agent_prompt_prefix" ["hello"]).2
             = Raises e)
       ↔ (∀ h, h ∈ strict_hooks → hook_name h ≠ "agent_prompt_prefix")).
Proof.
  assert (∃ h, h ∈ strict_hooks ∧ hook_name h = "agent_prompt_prefix") as Hreg.
  { eexists. split; [apply list_elem_of_lookup_2 with 0; reflexivity | reflexivity]. }
  split; [exact Hreg|]. split; [reflexivity|].
  intros [Hnone _]. destruct Hreg as (h & Hin & Hn).
  apply (Hnone (ex_intro _ TypeError eq_refl) h Hin Hn).
Qed.

End HookWitness.

(** ** Plugin settings *)

Section SettingsFacts.
Import Py Settings.
Implicit Types (fs : gmap string file) (plugin_id : string).

Lemma get_try_object (doc : gmap string json) (settings : json) :
  get_try (Json (JObj doc)) settings =
    (JObj (match doc !! "active" with
           | None => <["active" := JBool false]> doc
           | Some _ => doc
           end), Returns tt).
Proof. unfold get_try; simpl. destruct (doc !! "active"); reflexivity. Qed.

(** X25: [get_plugin_settings] never raises.  Without a settings file, or
    with one that does not parse, it returns [{"active": False}]; for a
    file holding a JSON object it returns that object, with
    ["active": False] added when the object has no ["active"] key, so the
    key is there for every such file. *)
Theorem get_plugin_settings_has_active fs plugin_id :
  let stored := fs !! settings_path plugin_id in
  (∃ v, get_plugin_settings fs plugin_id = Returns v)
  ∧ (stored = None ∨ stored = Some Garbage →
     get_plugin_settings fs plugin_id = Returns (JObj {[ "active" := JBool false ]}))
  ∧ (∀ doc, stored = Some (Json (JObj doc)) →
     ∃ settings, get_plugin_settings fs plugin_id = Returns (JObj settings)
       ∧ is_Some (settings !! "active")
       ∧ (doc !! "active" = None → settings = <["active" := JBool false]> doc)
       ∧ (is_Some (doc !! "active") → settings = doc)).
Proof.
  simpl. unfold get_plugin_settings. repeat split.
  - destruct (fs !! settings_path plugin_id) as [f|]; [|eauto].
    destruct (get_try f _) as [s [[]|e]]; eauto.
  - intros [-> | ->]; reflexivity.
  - intros doc ->. rewrite get_try_object.
    destruct (doc !! "active") as [a|] eqn:Hactive.
    + exists doc. split; [done|]. split; [by rewrite Hactive|]. split; done.
    + exists (<["active" := JBool false]> doc).
      split; [done|]. split; [by rewrite lookup_insert_eq|].
      split; [done | by intros [? ?]].
Qed.

(** C7: when the settings file holds a document, [save_plugin_settings]
    returns, and writes back, the document in which every key of the
    payload carries the payload's value and every other key keeps its
    stored value. *)
Theorem save_plugin_settings_merges fs plugin_id
    (stored payload : gmap string json) :
  fs !! settings_path plugin_id = Some (Json (JObj stored)) →
  ∃ merged,
    save_plugin_settings fs plugin_id payload =
      (<[settings_path plugin_id := Json (JObj merged)]> fs,
       Returns (JObj merged))
    ∧ (∀ k v, payload !! k = Some v → merged !! k = Some v)
    ∧ (∀ k, payload !! k = None → merged !! k = stored !! k).
Proof.
  intros Hstored. exists (payload ∪ stored).
  unfold save_plugin_settings, save_try. rewrite Hstored. simpl.
  repeat split.
  - intros k v Hk. by apply lookup_union_Some_l.
  - intros k Hk. by apply lookup_union_r.
Qed.

End SettingsFacts.

Section SettingsWitness.
Import Py Settings Samples.

(** The example of the specification: stored [{"active": true, "x": 1}],
    payload [{"x": 2}], result [{"active": true, "x": 2}]. *)
Lemma save_plugin_settings_merges_witness :
  (save_plugin_settings settings_disk "foo" payload_settings).2
    = Returns (JObj merged_settings).
Proof.
  destruct (save_plugin_settings_merges settings_disk "foo"
              stored_settings payload_settings eq_refl)
    as (merged & -> & Hover & Hkeep).
  simpl. do 2 f_equal. apply map_eq. intros k.
  destruct (decide (k = "x")) as [-> | Hx].
  - rewrite (Hover "x" (JNum 2)); reflexivity.
  - rewrite Hkeep.
    + unfold stored_settings, merged_settings.
      destruct (decide (k = "active")) as [-> | Ha]; [reflexivity |].
      rewrite !lookup_insert_ne, !lookup_singleton_ne by done. reflexivity.
    + unfold payload_settings. by rewrite lookup_singleton_ne.
Defined.

(** C6: the ["active"] key is not always there.  When the settings file
    holds the JSON list [[1]], the list is bound to [settings], the test
    ["active" not in settings] is true and the item assignment raises
    [TypeError] inside [try]; the handler only logs that it defaults to
    ["active": False], and the list is returned as it parsed: no
    exception, no ["active"] key, not even a dict. *)
Theorem get_plugin_settings_list_document :
  MoreSamples.list_settings_disk !! settings_path "foo"
    = Some (Json (JArr [JNum 1]))
  ∧ not_in "active" (JArr [JNum 1]) = Returns true
  ∧ setitem (JArr [JNum 1]) "active" (JBool false) = Raises TypeError
  ∧ get_try (Json (JArr [JNum 1])) (JObj {[ "active" := JBool false ]})
    = (JArr [JNum 1], Raises TypeError)
  ∧ get_plugin_settings MoreSamples.list_settings_disk "foo"
    = Returns (JArr [JNum 1])
  ∧ (∀ settings : gmap string json,
       get_plugin_settings MoreSamples.list_settings_disk "foo"
         ≠ Returns (JObj settings)).
Proof.
  split; [reflexivity|]. split; [reflexivity|]. split; [reflexivity|].
  split; [reflexivity|].
  assert (get_plugin_settings MoreSamples.list_settings_disk "foo"
          = Returns (JArr [JNum 1])) as Hrun by reflexivity.
  split; [exact Hrun|]. intros settings. rewrite Hrun. discriminate.
Qed.

End SettingsWitness.

(** ** Plugin metadata *)

Section MetadataFacts.
Import Py Metadata.
Variable to_camel_case : string → string.
Implicit Types (fs : gmap string file) (plugin_folder : string).

(** The metadata built from a descriptor dict: the id comes from the
    folder, every other field from the dict or else from its default. *)
Lemma get_plugin_metadata_object fs plugin_folder (data : gmap string json) :
  load_descriptor fs (os_path_join plugin_folder ["plugin.json"]) = JObj data →
  ∃ meta, get_plugin_metadata to_camel_case fs plugin_folder = Returns meta
    ∧ meta !! "id" =
        Some (JStr (os_path_basename (os_path_normpath plugin_folder)))
    ∧ meta !! "name" = Some (dict_get data "name"
        (JStr (to_camel_case (os_path_basename (os_path_normpath plugin_folder)))))
    ∧ meta !! "description" =
        Some (dict_get data "description" (JStr default_description))
    ∧ meta !! "version" = Some (dict_get data "version" (JStr "0.0.1")).
Proof.
  intros Hload. unfold get_plugin_metadata.
  change plugin_json_metadata_file_name with "plugin.json". rewrite Hload.
  eexists. split; [reflexivity |].
  repeat split; by simplify_map_eq.
Qed.

(** C8: the ["id"] of the metadata is the base name of the plugin folder,
    whatever the descriptor holds.  Without a descriptor, or with one that
    does not parse, the name is the camel-cased id, the version is
    ["0.0.1"] and the description is the text asking for a [plugin.json];
    with a descriptor document, each of these holds for the field the
    document lacks. *)
Theorem get_plugin_metadata_id_and_defaults fs plugin_folder :
  let plugin_id := os_path_basename (os_path_normpath plugin_folder) in
  let descriptor := fs !! os_path_join plugin_folder ["plugin.json"] in
  (∀ meta, get_plugin_metadata to_camel_case fs plugin_folder = Returns meta →
     meta !! "id" = Some (JStr plugin_id))
  ∧ (descriptor = None ∨ descriptor = Some Garbage →
     ∃ meta, get_plugin_metadata to_camel_case fs plugin_folder = Returns meta
       ∧ meta !! "id" = Some (JStr plugin_id)
       ∧ meta !! "name" = Some (JStr (to_camel_case plugin_id))
       ∧ meta !! "description" = Some (JStr default_description)
       ∧ meta !! "version" = Some (JStr "0.0.1"))
  ∧ (∀ data, descriptor = Some (Json (JObj data)) →
     ∃ meta, get_plugin_metadata to_camel_case fs plugin_folder = Returns meta
       ∧ meta !! "id" = Some (JStr plugin_id)
       ∧ (data !! "name" = None →
          meta !! "name" = Some (JStr (to_camel_case plugin_id)))
       ∧ (data !! "description" = None →
          meta !! "description" = Some (JStr default_description))
       ∧ (data !! "version" = None → meta !! "version" = Some (JStr "0.0.1")))
  ∧ default_description =
      "Description not found for this plugin. Please create a `plugin.json` in the plugin folder.".
Proof.
  cbv zeta. split; [| split; [| split; [| reflexivity]]].
  - intros meta. unfold get_plugin_metadata.
    destruct (load_descriptor fs _) as [| | | | |data]; try discriminate.
    intros [= <-]. by simplify_map_eq.
  - intros Hdesc.
    destruct (get_plugin_metadata_object fs plugin_folder ∅)
      as (meta & Hrun & Hid & Hname & Hdescr & Hversion).
    { unfold load_descriptor. by destruct Hdesc as [-> | ->]. }
    exists meta. by repeat split.
  - intros data Hdesc.
    destruct (get_plugin_metadata_object fs plugin_folder data)
      as (meta & Hrun & Hid & Hname & Hdescr & Hversion).
    { unfold load_descriptor. by rewrite Hdesc. }
    exists meta. unfold dict_get in *. repeat split; try done.
    + intros Hnone. by rewrite Hname, Hnone.
    + intros Hnone. by rewrite Hdescr, Hnone.
    + intros Hnone. by rewrite Hversion, Hnone.
Qed.

End MetadataFacts.

(** ** The guarded static files *)

Section AuthStaticFacts.
Import Py AuthStatic.
Context {Scope : Type}.
Variable request_headers : Scope → outcome (list (string * string)).
Variable check_api_key : option string → outcome (option string).
Variable static_files_call : Scope → outcome unit.

(** C10: in every run of [AuthStatic.__call__] that reaches the request
    headers, the first call is [check_api_key] on the [access_token]
    header; the static file server is called only after that call, and
    only when it returned. *)
Theorem auth_static_checks_key_first (scope : Scope) :
  let trace :=
    (call request_headers check_api_key static_files_call scope).1 in
  (∀ headers, request_headers scope = Returns headers →
     trace !! 0 = Some (CheckApiKey (headers_get headers "access_token")))
  ∧ (∀ i served, trace !! i = Some (ServeStatic served) →
     ∃ headers, request_headers scope = Returns headers
       ∧ trace !! 0 = Some (CheckApiKey (headers_get headers "access_token"))
       ∧ 0 < i
       ∧ is_return (check_api_key (headers_get headers "access_token")) = true).
Proof.
  simpl. unfold call.
  destruct (request_headers scope) as [headers | e]; simpl.
  - destruct (check_api_key (headers_get headers "access_token")) as [k | e] eqn:Hcheck;
      simpl; split.
    + by intros ? [= <-].
    + intros [|[|i]] served Hi; try discriminate.
      exists headers. rewrite Hcheck. repeat split; lia.
    + by intros ? [= <-].
    + intros [|i] served Hi; discriminate.
  - split; [intros ? [=] | intros i served Hi; discriminate].
Qed.

End AuthStaticFacts.

(** ** Tool embeddings *)

Section IndexFacts.
Import Py Memory Tools ToolsSpec.
Implicit Types (ts : list CatTool) (idx : gmap string nat) (d : string).

Lemma index_from_None i ts idx d :
  index_from i ts idx !! d = None ↔
  idx !! d = None ∧ d ∉ description <$> ts.
Proof.
  revert i idx. induction ts as [|t rest IH]; intros i idx; simpl.
  - split; [intros H; split; [done | by apply not_elem_of_nil] | by intros [? _]].
  - rewrite IH, not_elem_of_cons.
    destruct (decide (description t = d)) as [<- | Hne].
    + rewrite lookup_insert_eq. split; [by intros [? _] | by intros [_ [? _]]].
    + rewrite lookup_insert_ne by done.
      split; [intros [? ?]; auto | intros [? [_ ?]]; auto].
Qed.

(** A description found in the index names the last tool that has it. *)
Lemma index_from_Some i ts idx d k :
  index_from i ts idx !! d = Some k →
  (idx !! d = Some k ∧ d ∉ description <$> ts)
  ∨ (∃ j t, k = i + j ∧ ts !! j = Some t ∧ description t = d
       ∧ ∀ j' t', j < j' → ts !! j' = Some t' → description t' ≠ d).
Proof.
  revert i idx. induction ts as [|t rest IH]; intros i idx; simpl.
  - intros H. left. split; [done | by apply not_elem_of_nil].
  - intros H. apply IH in H as [[Hidx Hnot] | (j & t' & -> & Hj & Hd & Hlast)].
    + destruct (decide (description t = d)) as [Heq | Hne].
      * subst d. rewrite lookup_insert_eq in Hidx. injection Hidx as <-.
        right. exists 0, t. rewrite Nat.add_0_r.
        split; [done|]. split; [done|]. split; [done|].
        intros [|j'] t' Hlt Hj'; [lia|]. simpl in Hj'. intros Hd.
        apply Hnot. rewrite <- Hd. apply list_elem_of_fmap_2.
        eapply list_elem_of_lookup_2; eauto.
      * rewrite lookup_insert_ne in Hidx by done. left. split; [done|].
        rewrite not_elem_of_cons. auto.
    + right. exists (S j), t'.
      split; [lia|]. split; [done|]. split; [done|].
      intros [|j'] t'' Hlt Hj'; [lia|]. simpl in Hj'. apply (Hlast j'); [lia | done].
Qed.

Lemma plugins_tools_index_None ts d :
  plugins_tools_index ts !! d = None ↔ d ∉ description <$> ts.
Proof.
  unfold plugins_tools_index. rewrite index_from_None, lookup_empty.
  split; [by intros [_ ?] | done].
Qed.

Lemma plugins_tools_index_Some ts d k :
  plugins_tools_index ts !! d = Some k →
  ∃ t, ts !! k = Some t ∧ description t = d
    ∧ ∀ j' t', k < j' → ts !! j' = Some t' → description t' ≠ d.
Proof.
  intros H. apply index_from_Some in H as [[H _] | (j & t & -> & ? & ? & ?)].
  - by rewrite lookup_empty in H.
  - exists t. auto.
Qed.

(** With pairwise distinct descriptions every tool is the one its
    description is indexed to. *)
Lemma plugins_tools_index_NoDup ts k t :
  NoDup (description <$> ts) → ts !! k = Some t →
  plugins_tools_index ts !! description t = Some k.
Proof.
  intros Hnodup Hk.
  destruct (plugins_tools_index ts !! description t) as [k'|] eqn:Hidx.
  - apply plugins_tools_index_Some in Hidx as (t' & Hk' & Hd & _).
    f_equal. eapply NoDup_lookup; [exact Hnodup | |].
    + rewrite list_lookup_fmap, Hk'. simpl. by rewrite Hd.
    + by rewrite list_lookup_fmap, Hk.
  - apply plugins_tools_index_None in Hidx. destruct Hidx.
    apply list_elem_of_fmap_2. eapply list_elem_of_lookup_2; eauto.
Qed.

(** The index reads nothing but the descriptions. *)
Lemma index_from_descriptions i ts ts' idx :
  description <$> ts = description <$> ts' →
  index_from i ts idx = index_from i ts' idx.
Proof.
  revert i ts' idx. induction ts as [|t rest IH]; intros i [|t' rest'] idx Heq;
    try discriminate; [done|].
  simpl in *. injection Heq as Hd Hrest. rewrite Hd. by apply IH.
Qed.

Lemma plugins_tools_index_descriptions ts ts' :
  description <$> ts = description <$> ts' →
  plugins_tools_index ts = plugins_tools_index ts'.
Proof. apply index_from_descriptions. Qed.

End IndexFacts.

Section LoopFacts.
Import Py Memory Tools ToolsSpec.
Implicit Types (ts : list CatTool) (idx : gmap string nat) (d : string)
  (records store : list Point) (r : Point).

Lemma filter_ext_in {A} (P Q : A → Prop) `{∀ x, Decision (P x)}
    `{∀ x, Decision (Q x)} (l : list A) :
  (∀ x, x ∈ l → P x ↔ Q x) → filter P l = filter Q l.
Proof.
  induction l as [|x l IH]; intros Hext; [done|].
  rewrite !filter_cons.
  rewrite IH by (intros y Hy; apply Hext; by right).
  destruct (decide (P x)) as [HP | HP], (decide (Q x)) as [HQ | HQ]; try done.
  - destruct HQ. apply Hext; [by left | done].
  - destruct HP. apply Hext; [by left | done].
Qed.

Lemma triple_eq {A B C} (a a' : A) (b b' : B) (c c' : C) :
  a = a' → b = b' → c = c' → (a, b, c) = (a', b', c').
Proof. by intros -> -> ->. Qed.

Lemma assign_assign v w t :
  assign v (assign w t) = assign (match v with Some _ => v | None => w end) t.
Proof. by destruct v, w, t. Qed.

Lemma description_assign v t : description (assign v t) = description t.
Proof. by destruct v. Qed.

Lemma imap_assign_None ts : imap (λ _ t, assign None t) ts = ts.
Proof.
  apply list_eq. intros k. rewrite list_lookup_imap.
  by destruct (ts !! k).
Qed.

Lemma last_assigned_cons idx r records k :
  last_assigned idx (r :: records) k =
    match last_assigned idx records k with
    | Some v => Some v
    | None => if bool_decide (target idx r = Some k)
              then Some (point_vector r) else None
    end.
Proof. reflexivity. Qed.

Lemma last_assigned_app idx records1 records2 k :
  last_assigned idx (records1 ++ records2) k =
    match last_assigned idx records2 k with
    | Some v => Some v
    | None => last_assigned idx records1 k
    end.
Proof.
  induction records1 as [|r rest IH]; simpl.
  - by destruct (last_assigned idx records2 k).
  - rewrite IH. by destruct (last_assigned idx records2 k).
Qed.

(** A vector written to position [k] comes from a record matched with it. *)
Lemma last_assigned_Some idx records k v :
  last_assigned idx records k = Some v →
  ∃ r, r ∈ records ∧ target idx r = Some k ∧ point_vector r = v.
Proof.
  induction records as [|r rest IH]; simpl; [done|].
  destruct (last_assigned idx rest k) as [v'|].
  - intros [= <-]. destruct IH as (r' & ? & ? & ?); [done|].
    exists r'. split; [by right | done].
  - case_bool_decide; [|done]. intros [= <-].
    exists r. split; [by left | done].
Qed.

Lemma last_assigned_None idx records k :
  last_assigned idx records k = None ↔
  ∀ r, r ∈ records → target idx r ≠ Some k.
Proof.
  induction records as [|r rest IH]; simpl.
  - split; [by intros _ r ?%elem_of_nil | done].
  - destruct (last_assigned idx rest k) as [v'|] eqn:Hrest.
    + split; [done|]. intros Hall.
      apply last_assigned_Some in Hrest as (r' & Hin & Ht & _).
      destruct (Hall r'); [by right | done].
    + case_bool_decide as Ht.
      * split; [done|]. intros Hall. destruct (Hall r); [by left | done].
      * split; [|done]. intros _ r' [-> | Hin]%elem_of_cons; [done|].
        by apply IH.
Qed.

(** Stale records contribute no assignment. *)
Lemma last_assigned_filter idx records k :
  last_assigned idx (filter (λ r, ¬ stale idx r) records) k =
  last_assigned idx records k.
Proof.
  induction records as [|r rest IH]; [done|].
  rewrite filter_cons. destruct (decide (¬ stale idx r)) as [Hkeep | Hdrop].
  - simpl. by rewrite IH.
  - simpl. rewrite IH. destruct (last_assigned idx rest k); [done|].
    case_bool_decide as Ht; [|done]. destruct Hdrop.
    unfold stale, target in *. destruct (page_content r) as [d|]; [|done].
    simpl in Ht. rewrite Ht. exact id.
Qed.

Lemma all_good_Forall records :
  Forall (λ r, is_Some (page_content r)) records → all_good records = true.
Proof.
  induction 1 as [|r rest [d Hd] _ IH]; [done|]. simpl. by rewrite Hd, IH.
Qed.

Lemma good_prefix_all records :
  Forall (λ r, is_Some (page_content r)) records → good_prefix records = records.
Proof.
  induction 1 as [|r rest [d Hd] _ IH]; [done|]. simpl. by rewrite Hd, IH.
Qed.

Lemma records_outcome_cons r records :
  records_outcome (r :: records) =
    match page_content r with
    | Some _ => records_outcome records
    | None => Raises (subscript_error r)
    end.
Proof. unfold records_outcome. simpl. by destruct (page_content r). Qed.

Lemma records_outcome_good records :
  all_good records = true → records_outcome records = Returns tt.
Proof.
  induction records as [|r rest IH]; [done|].
  rewrite records_outcome_cons. simpl.
  destruct (page_content r); [exact IH | done].
Qed.

(** The first record without [page_content] comes after records that all
    have one. *)
Lemma first_bad_Some records r :
  first_bad records = Some r ↔
  ∃ before after, records = before ++ r :: after
    ∧ Forall (λ r', is_Some (page_content r')) before
    ∧ page_content r = None.
Proof.
  split.
  - revert r. induction records as [|r0 rest IH]; intros r; simpl; [done|].
    destruct (page_content r0) as [d|] eqn:Hd.
    + intros (before & after & -> & Hbefore & Hnone)%IH.
      exists (r0 :: before), after.
      split; [done|]. split; [|done]. constructor; [by rewrite Hd | done].
    + intros [= <-]. by exists [], rest.
  - intros (before & after & -> & Hbefore & Hnone).
    induction Hbefore as [|r0 before [d Hd] _ IH]; simpl.
    + by rewrite Hnone.
    + by rewrite Hd.
Qed.

Lemma records_outcome_bad records :
  all_good records = false →
  ∃ r, first_bad records = Some r
    ∧ records_outcome records = Raises (subscript_error r).
Proof.
  unfold records_outcome.
  induction records as [|r rest IH]; simpl; [done|].
  destruct (page_content r) as [d|]; [exact IH | eauto].
Qed.

(** The loop over the records: every tool gets the vector of the last
    record matched with it, the ids of the stale records are collected,
    and only a record without [page_content] ends the loop early. *)
Lemma loop_records_spec idx records ts acc :
  loop_records idx records ts acc =
    (imap (λ k t, assign (last_assigned idx (good_prefix records) k) t) ts,
     acc ++ (point_id <$> filter (λ r, stale idx r) (good_prefix records)),
     records_outcome records).
Proof.
  revert ts acc. induction records as [|r rest IH]; intros ts acc.
  - simpl. by rewrite imap_assign_None, app_nil_r.
  - cbn [loop_records good_prefix]. rewrite records_outcome_cons.
    destruct (page_content r) as [d|] eqn:Hd; cbv beta iota.
    + destruct (idx !! d) as [i|] eqn:Hidx.
      * rewrite IH. apply triple_eq; [| |done].
        -- apply list_eq. intros k. rewrite !list_lookup_imap.
           assert (target idx r = Some i) as Ht by (unfold target; by rewrite Hd).
           rewrite last_assigned_cons, Ht.
           destruct (decide (i = k)) as [-> | Hne].
           ++ rewrite list_lookup_alter_eq. destruct (ts !! k) as [t|]; [|done].
              simpl. f_equal. rewrite bool_decide_eq_true_2 by done.
              change (set_embedding (Some (point_vector r)) t)
                with (assign (Some (point_vector r)) t).
              rewrite assign_assign.
              by destruct (last_assigned idx (good_prefix rest) k).
           ++ rewrite list_lookup_alter_ne by done.
              rewrite bool_decide_eq_false_2 by congruence.
              by destruct (last_assigned idx (good_prefix rest) k).
        -- rewrite filter_cons_False; [done|].
           unfold stale. rewrite Hd, Hidx. exact id.
      * rewrite IH. apply triple_eq; [| |done].
        -- apply list_eq. intros k. rewrite !list_lookup_imap.
           assert (target idx r = None) as Ht by (unfold target; by rewrite Hd).
           rewrite last_assigned_cons, Ht.
           rewrite bool_decide_eq_false_2 by done.
           by destruct (last_assigned idx (good_prefix rest) k).
        -- rewrite filter_cons_True by (unfold stale; by rewrite Hd, Hidx).
           by rewrite fmap_cons, <- app_assoc.
    + by rewrite imap_assign_None, app_nil_r.
Qed.

(** Deleting the ids of the stale records removes exactly those records,
    when ids are unique. *)
Lemma delete_stale idx store :
  NoDup (point_id <$> store) →
  delete (point_id <$> filter (λ r, stale idx r) store) store =
    filter (λ r, ¬ stale idx r) store.
Proof.
  intros Hnodup. unfold delete. apply filter_ext_in. intros r Hin.
  split.
  - intros Hnot Hstale. apply Hnot. apply list_elem_of_fmap_2.
    by apply list_elem_of_filter.
  - intros Hkeep (r' & Hid & [Hstale Hin']%list_elem_of_filter)%list_elem_of_fmap.
    apply list_elem_of_lookup_1 in Hin as [i Hi].
    apply list_elem_of_lookup_1 in Hin' as [j Hj].
    assert (i = j) as ->.
    { eapply NoDup_lookup; [exact Hnodup | |].
      - by rewrite list_lookup_fmap, Hi.
      - rewrite list_lookup_fmap, Hj. simpl. by rewrite Hid. }
    rewrite Hi in Hj. injection Hj as <-. by apply Hkeep.
Qed.

End LoopFacts.

Section ToolLoopFacts.
Import Py Memory Tools ToolsSpec.
Variable embed : string → vector.
Variable now : Z.
Implicit Types (ts : list CatTool) (idx : gmap string nat) (d : string)
  (records store : list Point) (r : Point) (t : CatTool) (cs : list call).

Lemma fresh_id_fresh store r : r ∈ store → point_id r ≠ fresh_id store.
Proof.
  intros Hin. unfold fresh_id.
  assert (point_id r ≤ max_list (point_id <$> store)); [|lia].
  apply max_list_elem_of_le. by apply list_elem_of_fmap_2.
Qed.

(** Reading back the id just handed out yields the record just stored. *)
Lemma retrieve_new t store :
  retrieve [fresh_id store] (store ++ [new_point embed now t store]) =
    [new_point embed now t store].
Proof.
  unfold retrieve. rewrite filter_app.
  rewrite (filter_ext_in _ (λ _, False) store).
  - assert (filter (λ _ : Point, False) store = []) as ->.
    { clear. induction store as [|r rest IH]; [done|].
      rewrite filter_cons_False by tauto. exact IH. }
    simpl. rewrite filter_cons_True; [done|]. simpl. by left.
  - intros r Hin. split; [|done]. intros Hid%list_elem_of_singleton.
    by apply (fresh_id_fresh store r).
Qed.

Lemma description_finish t : description (finish embed t) = description t.
Proof. unfold finish. by destruct (truthy (embedding t)). Qed.

(** The loop over the tools never raises: it embeds the tools without a
    usable embedding, one stored record each, and leaves the others. *)
Lemma loop_tools_spec ts store cs :
  loop_tools embed now ts store cs =
    (finish embed <$> ts, store ++ new_points embed now ts store,
     cs ++ new_calls embed now ts store, Returns tt).
Proof.
  revert store cs. induction ts as [|t rest IH]; intros store cs.
  - simpl. by rewrite !app_nil_r.
  - cbn [loop_tools new_points new_calls fmap list_fmap]. unfold finish at 1.
    destruct (truthy (embedding t)) eqn:Htruthy.
    + by rewrite IH.
    + unfold add_text.
      change {| point_id := fresh_id store;
                point_vector := embed (description t);
                payload := Some {| page_content_item := Some (description t);
                                   metadata_item := tool_metadata now t |} |}
        with (new_point embed now t store).
      rewrite retrieve_new, IH. by rewrite <- !app_assoc.
Qed.

Lemma new_points_truthy ts store :
  Forall (λ t, truthy (embedding t)) ts →
  new_points embed now ts store = [] ∧ new_calls embed now ts store = []
  ∧ finish embed <$> ts = ts.
Proof.
  induction 1 as [|t rest Ht _ IH]; [done|].
  destruct IH as (Hpoints & Hcalls & Hfinish).
  cbn [new_points new_calls fmap list_fmap]. fold (fmap (finish embed) rest).
  rewrite Hfinish. unfold finish.
  destruct (truthy (embedding t)); [done | destruct Ht].
Qed.

(** Each added record embeds the description of a tool that had no usable
    embedding. *)
Lemma new_points_elem ts store r :
  r ∈ new_points embed now ts store →
  ∃ j t, ts !! j = Some t ∧ truthy (embedding t) = false
    ∧ page_content r = Some (description t)
    ∧ point_vector r = embed (description t).
Proof.
  revert store. induction ts as [|t rest IH]; intros store; simpl.
  - by intros ?%elem_of_nil.
  - destruct (truthy (embedding t)) eqn:Htruthy.
    + intros (j & t' & ? & ?)%IH. by exists (S j), t'.
    + intros [-> | (j & t' & ? & ?)%IH]%elem_of_cons.
      * by exists 0, t.
      * by exists (S j), t'.
Qed.

Lemma new_points_for ts store j t :
  ts !! j = Some t → truthy (embedding t) = false →
  ∃ r, r ∈ new_points embed now ts store
    ∧ page_content r = Some (description t)
    ∧ point_vector r = embed (description t).
Proof.
  revert store j. induction ts as [|t' rest IH]; intros store j; [done|].
  destruct j as [|j]; simpl.
  - intros [= ->] ->. eexists. split; [by left | done].
  - intros Hj Hfalse. destruct (IH (if truthy (embedding t') then store
      else store ++ [new_point embed now t' store]) j Hj Hfalse) as (r & Hin & ?).
    exists r. split; [|done].
    destruct (truthy (embedding t')); [done | by right].
Qed.

Lemma new_points_page_contents ts store :
  page_content <$> new_points embed now ts store =
    (Some ∘ description) <$> filter (λ t, ¬ truthy (embedding t)) ts.
Proof.
  revert store. induction ts as [|t rest IH]; intros store; [done|].
  cbn [new_points]. rewrite filter_cons.
  destruct (truthy (embedding t)).
  - destruct (decide (¬ true)) as [H | _]; [destruct H; exact I | apply IH].
  - destruct (decide (¬ false)) as [_ | H]; [| destruct H; exact id].
    cbn [fmap list_fmap]. f_equal. apply IH.
Qed.

Lemma new_calls_no_delete ts store :
  Forall (λ c, is_delete c = false) (new_calls embed now ts store).
Proof.
  revert store. induction ts as [|t rest IH]; intros store; simpl; [done|].
  destruct (truthy (embedding t)); [done|].
  repeat constructor. apply IH.
Qed.

(** [embed_tools], loop by loop. *)
Lemma embed_tools_spec (st : State) :
  let idx := plugins_tools_index (tools st) in
  let ts1 := imap (λ k t,
    assign (last_assigned idx (good_prefix (procedural st)) k) t) (tools st) in
  let ids := point_id <$> filter (λ r, stale idx r) (good_prefix (procedural st)) in
  let store1 := if bool_decide (0 < length ids)
                then delete ids (procedural st) else procedural st in
  let cs1 := calls st ++ [GetAllPoints]
             ++ (if bool_decide (0 < length ids) then [Delete ids] else []) in
  embed_tools embed now st =
    if all_good (procedural st)
    then ({| tools := finish embed <$> ts1;
             procedural := store1 ++ new_points embed now ts1 store1;
             calls := cs1 ++ new_calls embed now ts1 store1 |}, Returns tt)
    else ({| tools := ts1; procedural := procedural st;
             calls := calls st ++ [GetAllPoints] |},
          records_outcome (procedural st)).
Proof.
  cbv zeta. unfold embed_tools, get_all_points.
  rewrite loop_records_spec. rewrite app_nil_l.
  destruct (all_good (procedural st)) eqn:Hgood.
  - rewrite (records_outcome_good _ Hgood).
    case_bool_decide; rewrite loop_tools_spec.
    + by rewrite <- !app_assoc.
    + by rewrite app_nil_r.
  - destruct (records_outcome_bad _ Hgood) as (r & _ & ->). done.
Qed.

End ToolLoopFacts.

Section StaleFacts.
Import Py Memory Tools ToolsSpec.
Variable embed : string → vector.
Variable now : Z.
Implicit Types (ts : list CatTool) (store : list Point) (r : Point).

Lemma stale_matches_no_tool ts r :
  stale (plugins_tools_index ts) r ↔ matches_no_tool ts r.
Proof.
  unfold stale, matches_no_tool. destruct (page_content r) as [d|]; [|done].
  destruct (plugins_tools_index ts !! d) as [k|] eqn:Hidx.
  - split; [done|]. intros Hno%bool_decide_unpack.
    apply plugins_tools_index_None in Hno. congruence.
  - split; [|done]. intros _. apply bool_decide_pack.
    by apply plugins_tools_index_None.
Qed.

Lemma filter_stale ts store :
  filter (λ r, stale (plugins_tools_index ts) r) store =
  filter (λ r, matches_no_tool ts r) store.
Proof. apply list_filter_iff. intros r. apply stale_matches_no_tool. Qed.

(** X26: when every stored record carries a description, the loop over
    the records runs to its end and [embed_tools] returns.  The records
    whose description is that of no current tool are the ones marked: if
    there are any, their ids go to the store in one [delete] call, made
    right after the records were fetched, and no other [delete] call is
    made; none of them is left in the collection. *)
Theorem embed_tools_deletes_stale_in_one_call (st : State) :
  Forall (λ r, is_Some (page_content r)) (procedural st) →
  let unmatched :=
    filter (λ r, matches_no_tool (tools st) r) (procedural st) in
  let result := embed_tools embed now st in
  result.2 = Returns tt
  ∧ (∃ later,
       calls result.1 =
         calls st ++ [GetAllPoints]
         ++ match unmatched with
            | [] => []
            | _ :: _ => [Delete (point_id <$> unmatched)]
            end
         ++ later
       ∧ Forall (λ c, is_delete c = false) later)
  ∧ Forall (λ r, matches_no_tool (tools st) r = false) (procedural result.1).
Proof.
  intros Hgood. cbv zeta. rewrite embed_tools_spec.
  rewrite (all_good_Forall _ Hgood), (good_prefix_all _ Hgood), filter_stale.
  set (unmatched := filter (λ r, matches_no_tool (tools st) r) (procedural st)).
  set (ts1 := imap _ (tools st)).
  assert (description <$> ts1 = description <$> tools st) as Hdescr.
  { apply list_eq. intros k. unfold ts1.
    rewrite !list_lookup_fmap, list_lookup_imap.
    destruct (tools st !! k); [|done]. simpl. by rewrite description_assign. }
  cbn [fst snd tools procedural calls]. split; [done|]. split.
  - destruct unmatched as [|r0 rest].
    + eexists. split; [|apply new_calls_no_delete]. by rewrite <- !app_assoc.
    + eexists. split; [|apply new_calls_no_delete].
      rewrite bool_decide_eq_true_2 by (simpl; lia). by rewrite <- !app_assoc.
  - apply Forall_app. split.
    + assert (Forall (λ r, matches_no_tool (tools st) r = false)
                (delete (point_id <$> unmatched) (procedural st))) as Hkept.
      { apply Forall_forall. intros r [Hid Hin]%list_elem_of_filter.
        destruct (matches_no_tool (tools st) r) eqn:Hm; [|done].
        destruct Hid. apply list_elem_of_fmap_2.
        apply list_elem_of_filter. by rewrite Hm. }
      case_bool_decide as Hlen; [done|].
      destruct unmatched as [|r0 rest] eqn:Hun; [|simpl in Hlen; lia].
      apply Forall_forall. intros r Hin.
      destruct (matches_no_tool (tools st) r) eqn:Hm; [|done].
      assert (r ∈ unmatched) as Hr
        by (apply list_elem_of_filter; by rewrite Hm).
      rewrite Hun in Hr. by apply elem_of_nil in Hr.
    + apply Forall_forall. intros r (j & t & Hj & _ & Hpc & _)%new_points_elem.
      unfold matches_no_tool. rewrite Hpc. apply bool_decide_eq_false_2.
      intros Hno. apply Hno. rewrite <- Hdescr.
      apply list_elem_of_fmap_2. eapply list_elem_of_lookup_2; eauto.
Qed.

End StaleFacts.

Section SyncInvariant.
Import Py Memory Tools ToolsSpec.
Variable embed : string → vector.
Variable now : Z.
Variable st : State.

Hypothesis tools_distinct : NoDup (description <$> tools st).
Hypothesis ids_distinct : NoDup (point_id <$> procedural st).
Hypothesis contents_distinct : NoDup (page_content <$> procedural st).
Hypothesis records_usable :
  Forall (λ r, is_Some (page_content r) ∧ point_vector r ≠ []) (procedural st).
Hypothesis embedded_tools_stored :
  Forall (λ t, truthy (embedding t) →
               Some (description t) ∈ page_content <$> procedural st) (tools st).

Local Abbreviation idx := (plugins_tools_index (tools st)).
Local Abbreviation after_records :=
  (imap (λ k t, assign (last_assigned idx (procedural st) k) t) (tools st)).
Local Abbreviation kept := (filter (λ r, ¬ stale idx r) (procedural st)).

Lemma filter_all {A} (P : A → Prop) `{∀ x, Decision (P x)} (l : list A) :
  Forall P l → filter P l = l.
Proof.
  induction 1 as [|x l Hx _ IH]; [done|]. by rewrite filter_cons_True, IH.
Qed.

Lemma records_good : Forall (λ r, is_Some (page_content r)) (procedural st).
Proof. eapply Forall_impl; [exact records_usable | by intros r [? _]]. Qed.

(** What is left of the collection after the batch delete. *)
Lemma kept_after_delete :
  let ids := point_id <$> filter (λ r, stale idx r) (procedural st) in
  (if bool_decide (0 < length ids)
   then delete ids (procedural st) else procedural st) = kept.
Proof.
  cbv zeta. case_bool_decide as Hlen.
  - by apply delete_stale.
  - symmetry. apply filter_all, Forall_forall. intros r Hin Hstale.
    apply Hlen. rewrite length_fmap.
    assert (r ∈ filter (λ r, stale idx r) (procedural st)) as Hr
      by by apply list_elem_of_filter.
    destruct (filter _ (procedural st)); [by apply elem_of_nil in Hr | simpl; lia].
Qed.

(** A record matched with position [k] carries the description of the tool
    at [k]. *)
Lemma target_description r k t :
  tools st !! k = Some t → target idx r = Some k →
  page_content r = Some (description t).
Proof.
  intros Hk Ht. unfold target in Ht.
  destruct (page_content r) as [d|]; [|done]. simpl in Ht.
  apply plugins_tools_index_Some in Ht as (t' & Hk' & <- & _). congruence.
Qed.

Lemma description_target r k t :
  tools st !! k = Some t → page_content r = Some (description t) →
  target idx r = Some k.
Proof.
  intros Hk Hpc. unfold target. rewrite Hpc. simpl.
  by apply plugins_tools_index_NoDup.
Qed.

(** A tool with a stored record ends the first loop with the vector of
    such a record, which is kept; any other tool is left as it was. *)
Lemma after_records_stored k t :
  tools st !! k = Some t →
  Some (description t) ∈ page_content <$> procedural st →
  ∃ r, r ∈ kept ∧ page_content r = Some (description t)
    ∧ point_vector r ≠ []
    ∧ last_assigned idx (procedural st) k = Some (point_vector r).
Proof.
  intros Hk (r0 & Hpc0 & Hin0)%list_elem_of_fmap.
  destruct (last_assigned idx (procedural st) k) as [v|] eqn:Hlast.
  - apply last_assigned_Some in Hlast as (r & Hin & Ht & <-).
    exists r. pose proof (target_description r k t Hk Ht) as Hpc.
    split; [|split; [done | split; [|done]]].
    + apply list_elem_of_filter. split; [|done].
      unfold stale. rewrite Hpc.
      rewrite (plugins_tools_index_NoDup _ k t) by done. exact id.
    + pose proof records_usable as Hall. rewrite Forall_forall in Hall.
      by apply Hall.
  - exfalso. rewrite last_assigned_None in Hlast.
    apply (Hlast r0 Hin0). by apply (description_target r0 k t).
Qed.

Lemma after_records_unstored k t :
  tools st !! k = Some t →
  Some (description t) ∉ page_content <$> procedural st →
  last_assigned idx (procedural st) k = None.
Proof.
  intros Hk Hno. apply last_assigned_None. intros r Hin Ht.
  apply Hno. rewrite <- (target_description r k t Hk Ht).
  by apply list_elem_of_fmap_2.
Qed.

Lemma after_records_descriptions :
  description <$> after_records = description <$> tools st.
Proof.
  apply list_eq. intros k. rewrite !list_lookup_fmap, list_lookup_imap.
  destruct (tools st !! k); [|done]. simpl. by rewrite description_assign.
Qed.

(** After the first loop a tool has a usable embedding exactly when a
    record with its description is stored. *)
Lemma after_records_truthy k t :
  tools st !! k = Some t →
  truthy (embedding (assign (last_assigned idx (procedural st) k) t)) ↔
  Some (description t) ∈ page_content <$> procedural st.
Proof.
  intros Hk. split.
  - intros Htruthy.
    destruct (decide (Some (description t) ∈ page_content <$> procedural st))
      as [|Hno]; [done|].
    rewrite (after_records_unstored k t Hk Hno) in Htruthy. simpl in Htruthy.
    pose proof embedded_tools_stored as Hall. rewrite Forall_forall in Hall.
    apply Hall; [|done]. eapply list_elem_of_lookup_2; eauto.
  - intros Hstored.
    destruct (after_records_stored k t Hk Hstored) as (r & _ & _ & Hv & ->).
    simpl. by destruct (point_vector r).
Qed.

Lemma kept_contents :
  page_content <$> kept ≡ₚ
  (Some ∘ description) <$> filter (λ t, truthy (embedding t)) after_records.
Proof.
  apply NoDup_Permutation.
  - eapply sublist_NoDup; [exact contents_distinct|].
    apply fmap_sublist, sublist_filter.
  - rewrite list_fmap_compose. apply NoDup_fmap_2; [apply _|].
    eapply sublist_NoDup; [|apply fmap_sublist, sublist_filter].
    by rewrite after_records_descriptions.
  - intros x. rewrite !list_elem_of_fmap. split.
    + intros (r & -> & [Hkeep Hin]%list_elem_of_filter).
      pose proof records_good as Hgood. rewrite Forall_forall in Hgood.
      destruct (Hgood r Hin) as [d Hd].
      destruct (idx !! d) as [k|] eqn:Hidx.
      2:{ destruct Hkeep. unfold stale. by rewrite Hd, Hidx. }
      apply plugins_tools_index_Some in Hidx as (t & Hk & <- & _).
      exists (assign (last_assigned idx (procedural st) k) t).
      split; [by rewrite Hd; simpl; rewrite description_assign|].
      apply list_elem_of_filter. split.
      * apply (after_records_truthy k t Hk). rewrite <- Hd.
        by apply list_elem_of_fmap_2.
      * apply list_elem_of_lookup_2 with k. by rewrite list_lookup_imap, Hk.
    + intros (t1 & -> & [Htruthy Hin]%list_elem_of_filter).
      apply list_elem_of_lookup_1 in Hin as [k Hk1].
      rewrite list_lookup_imap in Hk1.
      destruct (tools st !! k) as [t|] eqn:Hk; [|done].
      simpl in Hk1. injection Hk1 as <-.
      apply (after_records_truthy k t Hk) in Htruthy.
      destruct (after_records_stored k t Hk Htruthy) as (r & Hin & Hpc & _).
      exists r. split; [|done]. simpl. by rewrite description_assign, Hpc.
Qed.

(** C1, as amended: take tools with pairwise distinct descriptions and a
    collection whose records have pairwise distinct ids and descriptions,
    each with a description and a non-empty vector, such that every tool
    that already has an embedding has a stored record.  Then [embed_tools]
    returns; it leaves the tools' descriptions as they were, as many
    records as tools, the records' descriptions being the tools'
    descriptions up to order (none twice), and every tool carries the
    vector of the record stored under its description. *)
Theorem embed_tools_bijection :
  ∃ st', embed_tools embed now st = (st', Returns tt)
    ∧ description <$> tools st' = description <$> tools st
    ∧ length (procedural st') = length (tools st')
    ∧ page_content <$> procedural st' ≡ₚ (Some ∘ description) <$> tools st'
    ∧ NoDup (page_content <$> procedural st')
    ∧ Forall (λ t, ∃ r, r ∈ procedural st'
                ∧ page_content r = Some (description t)
                ∧ embedding t = Some (point_vector r)) (tools st').
Proof.
  eexists. split.
  { rewrite embed_tools_spec.
    rewrite (all_good_Forall _ records_good), (good_prefix_all _ records_good).
    rewrite kept_after_delete. reflexivity. }
  cbn [tools procedural calls].
  assert (description <$> (finish embed <$> after_records)
          = description <$> tools st) as Hdescr.
  { rewrite <- after_records_descriptions, <- list_fmap_compose.
    apply list_fmap_ext. intros _ t _. apply description_finish. }
  assert (page_content <$> (kept ++ new_points embed now after_records kept)
          ≡ₚ (Some ∘ description) <$> (finish embed <$> after_records))
    as Hperm.
  { assert ((Some ∘ description) <$> (finish embed <$> after_records)
            = (Some ∘ description) <$> after_records) as ->.
    { rewrite <- list_fmap_compose. apply list_fmap_ext. intros _ t _. simpl.
      by rewrite description_finish. }
    rewrite fmap_app, new_points_page_contents, kept_contents, <- fmap_app.
    by rewrite filter_app_complement. }
  split; [exact Hdescr|]. split; [|split; [exact Hperm|split]].
  - apply Permutation_length in Hperm. rewrite !length_fmap in Hperm.
    by rewrite length_fmap.
  - rewrite Hperm, list_fmap_compose, Hdescr.
    apply NoDup_fmap_2; [apply _ | done].
  - apply Forall_forall. intros t' (t1 & -> & Hin)%list_elem_of_fmap.
    apply list_elem_of_lookup_1 in Hin as [k Hk1].
    rewrite list_lookup_imap in Hk1.
    destruct (tools st !! k) as [t|] eqn:Hk; [|done].
    simpl in Hk1. injection Hk1 as <-.
    rewrite description_finish, description_assign. unfold finish.
    destruct (truthy (embedding (assign _ t))) eqn:Htruthy.
    + assert (Some (description t) ∈ page_content <$> procedural st) as Hstored.
      { apply (after_records_truthy k t Hk). by rewrite Htruthy. }
      destruct (after_records_stored k t Hk Hstored) as (r & Hin & Hpc & _ & ->).
      exists r. split; [apply elem_of_app; by left | done].
    + destruct (new_points_for embed now after_records kept k
                  (assign (last_assigned idx (procedural st) k) t))
        as (r & Hin & Hpc & Hv); [by rewrite list_lookup_imap, Hk | done |].
      exists r. rewrite description_assign in Hpc, Hv.
      split; [apply elem_of_app; by right|]. split; [done|].
      simpl. by rewrite description_assign, Hv.
Qed.

End SyncInvariant.

Section SecondRun.
Import Py Memory Tools ToolsSpec.
Variable embed : string → vector.
Variable now : Z.
Variable st : State.

Hypothesis embed_nonempty : ∀ d, embed d ≠ [].
Hypothesis ids_distinct : NoDup (point_id <$> procedural st).

Local Abbreviation idx := (plugins_tools_index (tools st)).
Local Abbreviation records := (procedural st).
Local Abbreviation after_records :=
  (imap (λ k t, assign (last_assigned idx records k) t) (tools st)).
Local Abbreviation kept := (filter (λ r, ¬ stale idx r) records).
Local Abbreviation added := (new_points embed now after_records kept).

Lemma filter_none {A} (P : A → Prop) `{∀ x, Decision (P x)} (l : list A) :
  Forall (λ x, ¬ P x) l → filter P l = [].
Proof.
  induction 1 as [|x l Hx _ IH]; [done|]. by rewrite filter_cons_False.
Qed.

Lemma all_good_true (rs : list Point) :
  all_good rs = true → Forall (λ r, is_Some (page_content r)) rs.
Proof.
  induction rs as [|r rest IH]; [done|]. simpl.
  destruct (page_content r) eqn:Hpc; [|done].
  intros Hrest. constructor; [by rewrite Hpc | by apply IH].
Qed.

Lemma finish_truthy t : truthy (embedding (finish embed t)) = true.
Proof.
  unfold finish. destruct (truthy (embedding t)) eqn:Ht; [done|]. simpl.
  pose proof (embed_nonempty (description t)). by destruct (embed (description t)).
Qed.

Lemma finish_idem t : truthy (embedding t) = true → finish embed t = t.
Proof. unfold finish. by intros ->. Qed.

(** Writing the same vectors a second time changes nothing. *)
Lemma imap_assign_twice (f : nat → option vector) (ts : list CatTool) :
  imap (λ k t, assign (f k) t) (imap (λ k t, assign (f k) t) ts) =
  imap (λ k t, assign (f k) t) ts.
Proof.
  apply list_eq. intros k. rewrite !list_lookup_imap.
  destruct (ts !! k) as [t|]; [|done]. simpl.
  rewrite assign_assign. by destruct (f k).
Qed.

Lemma imap_assign_descriptions (f : nat → option vector) (ts : list CatTool) :
  description <$> imap (λ k t, assign (f k) t) ts = description <$> ts.
Proof.
  apply list_eq. intros k. rewrite !list_lookup_fmap, list_lookup_imap.
  destruct (ts !! k); [|done]. simpl. by rewrite description_assign.
Qed.

Lemma finish_descriptions (ts : list CatTool) :
  description <$> (finish embed <$> ts) = description <$> ts.
Proof.
  rewrite <- list_fmap_compose. apply list_fmap_ext.
  intros _ t _. apply description_finish.
Qed.

(** A run that stops at a record without [page_content] stops there again,
    having changed nothing. *)
Lemma second_run_after_raise :
  all_good records = false →
  let first := embed_tools embed now st in
  embed_tools embed now first.1 =
    ({| tools := tools first.1; procedural := procedural first.1;
        calls := calls first.1 ++ [GetAllPoints] |}, first.2).
Proof.
  intros Hbad. cbv zeta. rewrite (embed_tools_spec embed now st), Hbad.
  cbn [fst snd]. rewrite embed_tools_spec. cbn [tools procedural calls].
  rewrite Hbad.
  rewrite (plugins_tools_index_descriptions _ (tools st))
    by apply imap_assign_descriptions.
  by rewrite imap_assign_twice.
Qed.

Lemma first_run :
  all_good records = true →
  embed_tools embed now st =
    ({| tools := finish embed <$> after_records;
        procedural := kept ++ added;
        calls := (calls st ++ [GetAllPoints]
                  ++ (if bool_decide
                        (0 < length (point_id <$> filter (λ r, stale idx r) records))
                      then [Delete (point_id <$> filter (λ r, stale idx r) records)]
                      else []))
                 ++ new_calls embed now after_records kept |},
     Returns tt).
Proof.
  intros Hgood. rewrite embed_tools_spec, Hgood.
  rewrite (good_prefix_all _ (all_good_true _ Hgood)).
  by rewrite (kept_after_delete st ids_distinct).
Qed.

(** Every record added by the first run carries the description of a tool
    that the first loop left without a usable embedding. *)
Lemma added_elem r :
  r ∈ added →
  ∃ j t, tools st !! j = Some t
    ∧ truthy (embedding (assign (last_assigned idx records j) t)) = false
    ∧ page_content r = Some (description t)
    ∧ point_vector r = embed (description t).
Proof.
  intros (j & t1 & Hj & Hfalse & Hpc & Hv)%new_points_elem.
  rewrite list_lookup_imap in Hj.
  destruct (tools st !! j) as [t|] eqn:Ht; [|done].
  simpl in Hj. injection Hj as <-. rewrite description_assign in Hpc, Hv.
  by exists j, t.
Qed.

Lemma second_store_good :
  all_good records = true → all_good (kept ++ added) = true.
Proof.
  intros Hgood. apply all_good_Forall, Forall_app. split.
  - apply Forall_forall. intros r [_ Hin]%list_elem_of_filter.
    pose proof (all_good_true _ Hgood) as Hall.
    rewrite Forall_forall in Hall. by apply Hall.
  - apply Forall_forall. intros r (j & t & _ & _ & -> & _)%added_elem. eauto.
Qed.

Lemma second_store_matched :
  filter (λ r, stale idx r) (kept ++ added) = [].
Proof.
  apply filter_none, Forall_app. split.
  - apply Forall_forall. by intros r [? _]%list_elem_of_filter.
  - apply Forall_forall. intros r (j & t & Hj & _ & Hpc & _)%added_elem.
    unfold stale. rewrite Hpc.
    destruct (idx !! description t) eqn:Hidx; [exact id|].
    apply plugins_tools_index_None in Hidx. destruct Hidx.
    apply list_elem_of_fmap_2. eapply list_elem_of_lookup_2; eauto.
Qed.

Lemma second_last_assigned k :
  last_assigned idx (kept ++ added) k =
    match last_assigned idx added k with
    | Some v => Some v
    | None => last_assigned idx records k
    end.
Proof. by rewrite last_assigned_app, last_assigned_filter. Qed.

(** In the second run the vector written to a tool, if any, is the one it
    already has, unless another tool with the same description was
    embedded by the first run. *)
Lemma second_assign_unchanged k t :
  tools st !! k = Some t →
  last_assigned idx added k = None →
  assign (last_assigned idx records k)
    (finish embed (assign (last_assigned idx records k) t)) =
  finish embed (assign (last_assigned idx records k) t).
Proof.
  intros Hk Hadded.
  destruct (last_assigned idx records k) as [v|] eqn:Hlast; [|done].
  destruct (truthy (embedding (assign (Some v) t))) eqn:Htruthy.
  - rewrite finish_idem by done. by rewrite assign_assign.
  - exfalso.
    destruct (new_points_for embed now after_records kept k (assign (Some v) t))
      as (r & Hin & Hpc & _); [by rewrite list_lookup_imap, Hk, Hlast | done |].
    rewrite description_assign in Hpc.
    apply last_assigned_Some in Hlast as (r' & _ & Ht' & _).
    unfold target in Ht'. destruct (page_content r') as [d'|]; [|done].
    simpl in Ht'. pose proof Ht' as Hidx.
    apply plugins_tools_index_Some in Ht' as (t' & Hk' & <- & _).
    assert (t' = t) as -> by congruence.
    rewrite last_assigned_None in Hadded. apply (Hadded r Hin).
    unfold target. by rewrite Hpc.
Qed.

Lemma second_assign_truthy k t :
  tools st !! k = Some t →
  truthy (embedding (assign (last_assigned idx (kept ++ added) k)
    (finish embed (assign (last_assigned idx records k) t)))) = true.
Proof.
  intros Hk. rewrite second_last_assigned.
  destruct (last_assigned idx added k) as [v|] eqn:Hadded.
  - apply last_assigned_Some in Hadded as (r & Hin & _ & <-).
    apply added_elem in Hin as (j & t' & _ & _ & _ & ->). simpl.
    pose proof (embed_nonempty (description t')).
    by destruct (embed (description t')).
  - rewrite (second_assign_unchanged k t Hk Hadded). apply finish_truthy.
Qed.

Lemma second_assign_same k t :
  NoDup (description <$> tools st) →
  tools st !! k = Some t →
  assign (last_assigned idx (kept ++ added) k)
    (finish embed (assign (last_assigned idx records k) t)) =
  finish embed (assign (last_assigned idx records k) t).
Proof.
  intros Hnodup Hk. rewrite second_last_assigned.
  destruct (last_assigned idx added k) as [v|] eqn:Hadded.
  - apply last_assigned_Some in Hadded as (r & Hin & Ht & <-).
    apply added_elem in Hin as (j & t' & Hj & Hfalse & Hpc & ->).
    unfold target in Ht. rewrite Hpc in Ht. simpl in Ht.
    rewrite (plugins_tools_index_NoDup _ j t' Hnodup Hj) in Ht.
    injection Ht as ->. assert (t' = t) as -> by congruence.
    unfold finish. rewrite Hfalse, description_assign.
    by destruct (last_assigned idx records k).
  - by apply second_assign_unchanged.
Qed.

(** C2, as amended: let the embedder produce non-empty vectors and the
    stored records have pairwise distinct ids.  Run [embed_tools] twice in
    a row.  The second run ends as the first did; the only call it makes
    on the store is the one fetching the records, so it adds no text and
    deletes nothing, and it leaves the collection as the first run left
    it.  When the tools have pairwise distinct descriptions it leaves the
    tools as the first run left them too. *)
Theorem embed_tools_second_run_idle :
  let first := embed_tools embed now st in
  let second := embed_tools embed now first.1 in
  second.2 = first.2
  ∧ calls second.1 = calls first.1 ++ [GetAllPoints]
  ∧ procedural second.1 = procedural first.1
  ∧ (NoDup (description <$> tools st) → tools second.1 = tools first.1).
Proof.
  cbv zeta. destruct (all_good records) eqn:Hgood.
  2:{ rewrite (second_run_after_raise Hgood). by cbn [fst snd tools procedural calls]. }
  rewrite (first_run Hgood). cbn [fst snd].
  set (cs1 := (_ ++ new_calls _ _ _ _)).
  rewrite embed_tools_spec. cbn [tools procedural calls].
  rewrite (plugins_tools_index_descriptions
             (finish embed <$> after_records) (tools st))
    by (rewrite finish_descriptions; apply imap_assign_descriptions).
  rewrite (second_store_good Hgood).
  rewrite (good_prefix_all _ (all_good_true _ (second_store_good Hgood))).
  rewrite second_store_matched. cbn [fmap list_fmap length].
  rewrite bool_decide_eq_false_2 by lia.
  set (ts3 := imap _ (finish embed <$> after_records)).
  assert (Forall (λ t, truthy (embedding t)) ts3) as Htruthy.
  { apply Forall_forall. intros t3 [k Hk3]%list_elem_of_lookup_1.
    unfold ts3 in Hk3. rewrite list_lookup_imap, list_lookup_fmap in Hk3.
    rewrite list_lookup_imap in Hk3.
    destruct (tools st !! k) as [t|] eqn:Hk; [|done].
    simpl in Hk3. injection Hk3 as <-.
    by rewrite (second_assign_truthy k t Hk). }
  destruct (new_points_truthy embed now ts3 (kept ++ added) Htruthy)
    as (-> & -> & ->).
  cbn [fst snd tools procedural calls]. rewrite !app_nil_r.
  split; [done|]. split; [done|]. split; [done|].
  intros Hnodup. apply list_eq. intros k. unfold ts3.
  rewrite list_lookup_imap, !list_lookup_fmap, list_lookup_imap.
  destruct (tools st !! k) as [t|] eqn:Hk; [|done]. simpl.
  by rewrite (second_assign_same k t Hnodup Hk).
Qed.

End SecondRun.

Section ToolSamples.
Import Py Memory Tools ToolsSpec Samples.

Lemma embed_tools_deletes_stale_in_one_call_witness :
  let unmatched :=
    filter (λ r, matches_no_tool (tools synced_once) r) (procedural synced_once) in
  let result := embed_tools unit_embed 0 synced_once in
  result.2 = Returns tt
  ∧ (∃ later,
       calls result.1 =
         calls synced_once ++ [GetAllPoints]
         ++ match unmatched with
            | [] => []
            | _ :: _ => [Delete (point_id <$> unmatched)]
            end
         ++ later
       ∧ Forall (λ c, is_delete c = false) later)
  ∧ Forall (λ r, matches_no_tool (tools synced_once) r = false)
      (procedural result.1).
Proof.
  apply (embed_tools_deletes_stale_in_one_call unit_embed 0 synced_once).
  constructor; [eauto |]. constructor; [eauto |]. constructor.
Defined.

(** C9: a lookup failure can abort the loop, and then the records marked
    before it are not deleted.  The first stored record carries the
    description of a tool that is gone and is marked; reading the second
    record's ["page_content"] raises inside [try], and the handler, meant
    to mark such a record too, evaluates the same subscript for its log
    message and raises again.  The error leaves [embed_tools]: no [delete]
    call is made and both records stay in the collection.  It is a
    [KeyError] for a payload without the key and a [TypeError] for a
    record without a payload. *)
Theorem embed_tools_aborts_with_marked_record :
  let stale_record := point 1 [4%Z] "old_tool() - no longer there" in
  let run := embed_tools unit_embed 0 stale_then_untitled in
  let run' := embed_tools unit_embed 0 stale_then_bare in
  (matches_no_tool (tools stale_then_untitled) stale_record = true
   ∧ loop_records (plugins_tools_index (tools stale_then_untitled))
       (procedural stale_then_untitled) (tools stale_then_untitled) []
     = (tools stale_then_untitled, [1], Raises KeyError)
   ∧ run.2 = Raises KeyError
   ∧ calls run.1 = [GetAllPoints]
   ∧ procedural run.1 = procedural stale_then_untitled
   ∧ stale_record ∈ procedural run.1)
  ∧ (loop_records (plugins_tools_index (tools stale_then_bare))
       (procedural stale_then_bare) (tools stale_then_bare) []
     = (tools stale_then_bare, [1], Raises TypeError)
     ∧ run'.2 = Raises TypeError
     ∧ calls run'.1 = [GetAllPoints]
     ∧ procedural run'.1 = procedural stale_then_bare
     ∧ stale_record ∈ procedural run'.1).
Proof.
  cbv zeta. split.
  - split; [reflexivity|]. split; [reflexivity|]. split; [reflexivity|].
    split; [reflexivity|]. split; [reflexivity|]. by left.
  - split; [reflexivity|]. split; [reflexivity|]. split; [reflexivity|].
    split; [reflexivity|]. by left.
Qed.

(** C1 fails as stated: with two stored records under the description of
    the only tool, both match, neither is deleted, and the run ends with
    two records for one tool. *)
Lemma embed_tools_bijection_counterexample :
  let result := embed_tools unit_embed 0 doubled_record in
  result.2 = Returns tt
  ∧ length (procedural result.1) = 2
  ∧ length (tools result.1) = 1.
Proof. vm_compute. done. Qed.

Lemma embed_tools_bijection_witness :
  ∃ st', embed_tools unit_embed 0 synced_once = (st', Returns tt)
    ∧ description <$> tools st' = description <$> tools synced_once
    ∧ length (procedural st') = length (tools st')
    ∧ page_content <$> procedural st' ≡ₚ (Some ∘ description) <$> tools st'
    ∧ NoDup (page_content <$> procedural st')
    ∧ Forall (λ t, ∃ r, r ∈ procedural st'
                ∧ page_content r = Some (description t)
                ∧ embedding t = Some (point_vector r)) (tools st').
Proof.
  apply (embed_tools_bijection unit_embed 0 synced_once).
  - compute_done.
  - compute_done.
  - compute_done.
  - constructor; [split; [eauto | discriminate] |].
    constructor; [split; [eauto | discriminate] |]. constructor.
  - constructor; [intros [] |]. constructor; [intros [] |]. constructor.
Defined.

(** C2 fails as stated: of two tools with one description only the later
    one is in the index.  The first run embeds the earlier tool and stores
    a record for it; the second run matches that record with the later
    tool and overwrites the embedding that tool had, be it one it came
    with ([twin_tools]) or one the first run gave it from an older record
    ([twin_tools_stored]).  Neither second run adds or deletes anything. *)
Lemma embed_tools_second_run_counterexample :
  let first := embed_tools unit_embed 0 twin_tools in
  let second := embed_tools unit_embed 0 first.1 in
  let first' := embed_tools unit_embed 0 twin_tools_stored in
  let second' := embed_tools unit_embed 0 first'.1 in
  (first.2 = Returns tt ∧ second.2 = Returns tt
   ∧ embedding <$> tools first.1 = [Some [1%Z]; Some [7%Z]]
   ∧ embedding <$> tools second.1 = [Some [1%Z]; Some [1%Z]]
   ∧ calls second.1 = calls first.1 ++ [GetAllPoints]
   ∧ tools second.1 ≠ tools first.1)
  ∧ (first'.2 = Returns tt ∧ second'.2 = Returns tt
     ∧ embedding <$> tools first'.1 = [Some [1%Z]; Some [9%Z]]
     ∧ embedding <$> tools second'.1 = [Some [1%Z]; Some [1%Z]]
     ∧ calls second'.1 = calls first'.1 ++ [GetAllPoints]
     ∧ tools second'.1 ≠ tools first'.1).
Proof. vm_compute. repeat split; discriminate. Qed.

Lemma embed_tools_second_run_idle_witness :
  let first := embed_tools unit_embed 0 synced_once in
  let second := embed_tools unit_embed 0 first.1 in
  second.2 = first.2
  ∧ calls second.1 = calls first.1 ++ [GetAllPoints]
  ∧ procedural second.1 = procedural first.1
  ∧ (NoDup (description <$> tools synced_once) →
     tools second.1 = tools first.1).
Proof.
  apply (embed_tools_second_run_idle unit_embed 0 synced_once).
  - intros d. discriminate.
  - compute_done.
Defined.

End ToolSamples.

(** ** Removing a plugin *)

Section UninstallFacts.
Import Py Memory Tools Plugins.
Context {Disk Interp Hook Cat : Type}.
Variable rmtree : string → Disk → outcome Disk.
Variable glob : Disk → string → list string.
Variable files : Disk → gmap string file.
Variable import_tools :
  Disk → string → Interp → outcome (list (string * CatTool)) * Interp.
Variable sort_hooks : Interp → list Hook * Interp.
Variable augment_tool : Cat → CatTool → CatTool.
Variable get_plugin_path : string.
Variable to_camel_case : string → string.
Variable embed : string → vector.
Variable now : Z.

(** What [shutil.rmtree] does with a directory: whether [path] is one is
    [is_dir]; a path that is none makes it raise, and a removed directory
    is gone. *)
Variable is_dir : Disk → string → bool.
Hypothesis rmtree_missing :
  ∀ d path, is_dir d path = false → rmtree path d = Raises FileNotFoundError.
Hypothesis rmtree_removes :
  ∀ d d' path, rmtree path d = Returns d' → is_dir d' path = false.

Local Abbreviation find_plugins' :=
  (find_plugins glob files import_tools sort_hooks augment_tool to_camel_case).
Local Abbreviation embed_tools' := (Plugins.embed_tools embed now).
Local Abbreviation uninstall_plugin' :=
  (uninstall_plugin rmtree glob files import_tools sort_hooks augment_tool
     get_plugin_path to_camel_case embed now).
Implicit Types (w : World Disk Interp Hook Cat).

Lemma find_plugins_disk w : disk (find_plugins' w).1 = disk w.
Proof.
  unfold find_plugins.
  destruct (scan_folders _ _ _ _ _ _ _ _ _) as [[[ps tls] | e] it]; [|done].
  destruct (log_plugin_names ps); [|done].
  by destruct (sort_hooks it).
Qed.

Lemma embed_tools_disk w : disk (embed_tools' w).1 = disk w.
Proof.
  unfold Plugins.embed_tools. by destruct (Tools.embed_tools _ _ _).
Qed.

(** C5, as amended: [uninstall_plugin] does not consult the loaded plugins.
    When the directory named by the plugin path and the id does not exist,
    the [FileNotFoundError] of [shutil.rmtree] comes out and the world is
    left as it was.  When [shutil.rmtree] removes the directory, the
    plugins are scanned again on the disk without it, and if the scan
    returns the embedding sync is run on what it found; the directory
    stays gone. *)
Theorem uninstall_plugin_follows_rmtree w (plugin_id : string) :
  let path := get_plugin_path +:+ plugin_id in
  let result := uninstall_plugin' w plugin_id in
  (is_dir (disk w) path = false → result = (w, Raises FileNotFoundError))
  ∧ (∀ d', rmtree path (disk w) = Returns d' →
       let rescan := find_plugins' (with_disk w d') in
       disk result.1 = d'
       ∧ is_dir (disk result.1) path = false
       ∧ match rescan.2 with
         | Returns _ => result = embed_tools' rescan.1
         | Raises e => result = (rescan.1, Raises e)
         end).
Proof.
  cbv zeta. unfold uninstall_plugin. split.
  - intros Hmissing. by rewrite (rmtree_missing _ _ Hmissing).
  - intros d' Hrm. rewrite Hrm.
    pose proof (find_plugins_disk (with_disk w d')) as Hdisk.
    destruct (find_plugins' (with_disk w d')) as [w2 [[]|e]] eqn:Hscan;
      cbn [fst snd] in *.
    + rewrite embed_tools_disk, Hdisk. cbn [with_disk disk].
      split; [done|]. split; [by eapply rmtree_removes | done].
    + rewrite Hdisk. cbn [with_disk disk].
      split; [done|]. split; [by eapply rmtree_removes | done].
Qed.

End UninstallFacts.

Section UninstallSamples.
Import Py Memory Tools Plugins SampleDisk.

Lemma sample_rmtree_removes (d d' : Disk) path :
  rmtree path d = Returns d' → is_dir d' path = false.
Proof.
  unfold rmtree. destruct (is_dir d path); [|done]. intros [= <-].
  unfold is_dir. apply bool_decide_eq_false_2.
  intros (entry & -> & [Hne _]%list_elem_of_filter)%list_elem_of_fmap.
  by apply Hne.
Defined.

Lemma sample_rmtree_missing (d : Disk) path :
  is_dir d path = false → rmtree path d = Raises FileNotFoundError.
Proof. unfold rmtree. by intros ->. Defined.

(** C5 fails as stated: after a scan of a disk with the built-in plugin and
    an empty directory [foo], no plugin has the id [foo], yet uninstalling
    [foo] returns; and a plugin with the id [core_plugin] is loaded, yet
    uninstalling it raises [FileNotFoundError] and leaves it loaded. *)
Lemma uninstall_plugin_counterexample :
  plugin_exists (plugins (mad_hatter scanned)) "foo" = Returns false
  ∧ (uninstall scanned "foo").2 = Returns tt
  ∧ plugin_exists (plugins (mad_hatter scanned)) "core_plugin" = Returns true
  ∧ (uninstall scanned "core_plugin").2 = Raises FileNotFoundError
  ∧ plugin_exists (plugins (mad_hatter (uninstall scanned "core_plugin").1))
      "core_plugin" = Returns true.
Proof. vm_compute. done. Qed.

Lemma uninstall_plugin_follows_rmtree_witness :
  let path := "cat/plugins/" +:+ "foo" in
  let result := uninstall scanned "foo" in
  (is_dir (disk scanned) path = false →
   result = (scanned, Raises FileNotFoundError))
  ∧ (∀ d', rmtree path (disk scanned) = Returns d' →
       let rescan :=
         find_plugins glob files import_tools sort_hooks augment_tool camel
           (with_disk scanned d') in
       disk result.1 = d'
       ∧ is_dir (disk result.1) path = false
       ∧ match rescan.2 with
         | Returns _ =>
             result = Plugins.embed_tools Samples.unit_embed 0 rescan.1
         | Raises e => result = (rescan.1, Raises e)
         end).
Proof.
  exact (uninstall_plugin_follows_rmtree rmtree glob files import_tools
           sort_hooks augment_tool "cat/plugins/" camel Samples.unit_embed 0
           is_dir sample_rmtree_missing sample_rmtree_removes scanned "foo").
Defined.

End UninstallSamples.

(** * Further properties *)

(** ** Hook dispatch, continued *)

Section HookComposition.
Import Py Hooks.
Context {Arg Cat R : Type}.
Implicit Types (hooks : list (Hook Arg Cat R)) (ccat : Cat) (name : string)
  (args : list Arg).

Lemma execute_hook_from_result i j hooks ccat name args :
  (execute_hook_from i hooks ccat name args).2 =
  (execute_hook_from j hooks ccat name args).2.
Proof.
  revert i j. induction hooks as [|h rest IH]; intros i j; simpl; [done|].
  case_bool_decide; [done | apply IH].
Qed.

Lemma execute_hook_from_app i hooks1 hooks2 ccat name args :
  Forall (λ h, hook_name h ≠ name) hooks1 →
  execute_hook_from i (hooks1 ++ hooks2) ccat name args =
  execute_hook_from (i + length hooks1) hooks2 ccat name args.
Proof.
  intros Hall. revert i. induction Hall as [|h rest Hh _ IH]; intros i; simpl.
  - by rewrite Nat.add_0_r.
  - rewrite bool_decide_eq_false_2 by congruence.
    rewrite IH. f_equal. lia.
Qed.

Lemma execute_hook_from_shadow i hooks1 hooks2 ccat name args :
  (∃ h, h ∈ hooks1 ∧ hook_name h = name) →
  execute_hook_from i (hooks1 ++ hooks2) ccat name args =
  execute_hook_from i hooks1 ccat name args.
Proof.
  revert i. induction hooks1 as [|h rest IH]; intros i (h0 & Hin & Hn).
  - by apply elem_of_nil in Hin.
  - simpl. case_bool_decide as Hname; [done|].
    apply IH. exists h0. split; [|done].
    apply elem_of_cons in Hin as [-> | Hin]; [congruence | done].
Qed.

(** X1: hooks listed earlier shadow hooks listed later.  When the first
    part of the hook list has a hook with the requested name, what follows
    it plays no part; when it has none, dispatch is that of the second
    part, the hook called being counted from where that part starts. *)
Theorem execute_hook_app hooks1 hooks2 ccat name args :
  ((∃ h, h ∈ hooks1 ∧ hook_name h = name) →
   execute_hook (hooks1 ++ hooks2) ccat name args =
   execute_hook hooks1 ccat name args)
  ∧ ((∀ h, h ∈ hooks1 → hook_name h ≠ name) →
     execute_hook (hooks1 ++ hooks2) ccat name args =
     execute_hook_from (length hooks1) hooks2 ccat name args
     ∧ (execute_hook (hooks1 ++ hooks2) ccat name args).2 =
       (execute_hook hooks2 ccat name args).2).
Proof.
  unfold execute_hook. split.
  - apply execute_hook_from_shadow.
  - intros Hall. rewrite execute_hook_from_app by by apply Forall_forall.
    split; [done | apply execute_hook_from_result].
Qed.

(** X2: the hooks registered under other names have no say in the result:
    dropping them all from the list leaves the result as it is. *)
Theorem execute_hook_other_names hooks ccat name args :
  (execute_hook hooks ccat name args).2 =
  (execute_hook (filter (λ h, hook_name h = name) hooks) ccat name args).2.
Proof.
  unfold execute_hook. generalize 0 at 1. generalize 0.
  induction hooks as [|h rest IH]; intros i j; [done|].
  rewrite filter_cons. simpl. case_bool_decide as Hname.
  - rewrite decide_True by done. simpl. by rewrite bool_decide_eq_true_2.
  - rewrite decide_False by congruence. apply IH.
Qed.

(** X3: [execute_hook] calls at most one hook function, and it calls none
    exactly when no hook has the name; it then raises the "not present"
    exception, so no hook function runs before that exception, and no
    value is returned without a call.  Unless a hook function itself
    raises that very exception, calling none and raising it are the same
    thing. *)
Theorem execute_hook_calls_none_iff_raises hooks ccat name args :
  let run := execute_hook hooks ccat name args in
  length run.1 ≤ 1
  ∧ (run.1 = [] ↔ ∀ h, h ∈ hooks → hook_name h ≠ name)
  ∧ (run.1 = [] → run.2 = Raises (not_present name))
  ∧ (∀ v, run.2 = Returns v → length run.1 = 1)
  ∧ ((∀ h, h ∈ hooks → hook_function h args ccat ≠ Raises (not_present name)) →
     (run.1 = [] ↔ run.2 = Raises (not_present name))).
Proof.
  cbv zeta. unfold execute_hook.
  destruct (execute_hook_from_cases 0 hooks ccat name args)
    as [[Hall Hrun] | (k & h & Hk & Hn & _ & Hrun)]; rewrite Hrun; simpl.
  - split; [lia|]. split; [|split; [done|split; [done|done]]].
    split; [|done]. intros _. by apply Forall_forall.
  - assert (h ∈ hooks) as Hin by (eapply list_elem_of_lookup_2; eauto).
    split; [lia|]. split; [|split; [done|split; [done|]]].
    + split; [done|]. intros Hall. destruct (Hall h Hin Hn).
    + intros Hhonest. split; [done|]. intros Hraise.
      destruct (Hhonest h Hin Hraise).
Qed.

End HookComposition.

(** ** Plugin settings, continued *)

Section SettingsExtras.
Import Py Settings.
Implicit Types (fs : gmap string file) (plugin_id : string)
  (payload stored : gmap string json).

(** What [save_plugin_settings] does, by the content of the settings file. *)
Lemma save_plugin_settings_cases fs plugin_id payload :
  (∃ stored, fs !! settings_path plugin_id = Some (Json (JObj stored))
     ∧ save_plugin_settings fs plugin_id payload =
         (<[settings_path plugin_id := Json (JObj (payload ∪ stored))]> fs,
          Returns (JObj (payload ∪ stored))))
  ∨ ((∀ stored, fs !! settings_path plugin_id ≠ Some (Json (JObj stored)))
     ∧ save_plugin_settings fs plugin_id payload = (fs, Returns (JObj payload))).
Proof.
  unfold save_plugin_settings, save_try.
  destruct (fs !! settings_path plugin_id) as [[|j]|] eqn:Hfile;
    [by right | | by right].
  destruct j; try (by right).
  left. eauto.
Qed.

(** X4: without a settings document on disk (no file, a file that does not
    parse, or JSON that is not an object) [save_plugin_settings] writes
    nothing, so it never creates the file, and hands the payload back
    unmerged. *)
Theorem save_plugin_settings_without_document fs plugin_id payload :
  (∀ stored, fs !! settings_path plugin_id ≠ Some (Json (JObj stored))) →
  save_plugin_settings fs plugin_id payload = (fs, Returns (JObj payload)).
Proof.
  intros Hnone.
  destruct (save_plugin_settings_cases fs plugin_id payload)
    as [(stored & Hfile & _) | [_ Hrun]]; [|done].
  by destruct (Hnone stored).
Qed.

(** X5: [save_plugin_settings] never raises, leaves every other file as it
    is, and neither creates nor removes a file. *)
Theorem save_plugin_settings_frame fs plugin_id payload :
  let saved := save_plugin_settings fs plugin_id payload in
  is_return saved.2 = true
  ∧ (∀ path, path ≠ settings_path plugin_id → saved.1 !! path = fs !! path)
  ∧ dom saved.1 = dom fs.
Proof.
  cbv zeta.
  destruct (save_plugin_settings_cases fs plugin_id payload)
    as [(stored & Hfile & ->) | [_ ->]]; [|done].
  cbn [fst snd]. split; [done|]. split.
  - intros path Hne. by rewrite lookup_insert_ne.
  - rewrite dom_insert_L.
    apply subseteq_union_1_L, singleton_subseteq_l, elem_of_dom. eauto.
Qed.

(** X6: saving the same payload a second time changes nothing more and
    returns the same document. *)
Theorem save_plugin_settings_idempotent fs plugin_id payload :
  let saved := save_plugin_settings fs plugin_id payload in
  save_plugin_settings saved.1 plugin_id payload = saved.
Proof.
  cbv zeta.
  destruct (save_plugin_settings_cases fs plugin_id payload)
    as [(stored & Hfile & ->) | [Hnone Hrun]].
  - cbn [fst]. unfold save_plugin_settings, save_try.
    rewrite lookup_insert_eq. cbn [merge].
    rewrite insert_insert_eq.
    by rewrite (assoc (∪)), (idemp (∪) payload).
  - rewrite Hrun. cbn [fst]. exact Hrun.
Qed.

(** X7: two saves in a row amount to one save of the second payload laid
    over the first, when a settings document is on disk. *)
Theorem save_plugin_settings_compose fs plugin_id stored payload1 payload2 :
  fs !! settings_path plugin_id = Some (Json (JObj stored)) →
  save_plugin_settings (save_plugin_settings fs plugin_id payload1).1
    plugin_id payload2 =
  save_plugin_settings fs plugin_id (payload2 ∪ payload1).
Proof.
  intros Hfile. unfold save_plugin_settings, save_try. rewrite Hfile.
  cbn [merge fst]. rewrite lookup_insert_eq. cbn [merge].
  by rewrite insert_insert_eq, (assoc (∪)).
Qed.

(** X8: what was saved is what is read back: after a save onto a settings
    document, [get_plugin_settings] returns the document that the save
    returned, with ["active": False] added if it has no ["active"]. *)
Theorem get_after_save_plugin_settings fs plugin_id stored payload :
  fs !! settings_path plugin_id = Some (Json (JObj stored)) →
  ∃ merged,
    (save_plugin_settings fs plugin_id payload).2 = Returns (JObj merged)
    ∧ get_plugin_settings (save_plugin_settings fs plugin_id payload).1
        plugin_id =
      Returns (JObj (match merged !! "active" with
                     | Some _ => merged
                     | None => <["active" := JBool false]> merged
                     end)).
Proof.
  intros Hfile. exists (payload ∪ stored).
  unfold save_plugin_settings, save_try. rewrite Hfile. cbn [merge fst snd].
  split; [done|]. unfold get_plugin_settings.
  rewrite lookup_insert_eq, get_try_object. done.
Qed.

(** X9: a settings file holding JSON that is not an object is returned as
    it parsed, without an ["active"] key. *)
Theorem get_plugin_settings_not_object fs plugin_id (j : json) :
  (∀ doc, j ≠ JObj doc) →
  fs !! settings_path plugin_id = Some (Json j) →
  get_plugin_settings fs plugin_id = Returns j.
Proof.
  intros Hnot Hfile. unfold get_plugin_settings. rewrite Hfile.
  unfold get_try, not_in, setitem.
  destruct j as [| b | z | s | l | doc]; try done.
  - by destruct (String.index 0 "active" s).
  - by destruct (existsb _ l).
  - by destruct (Hnot doc).
Qed.

End SettingsExtras.

(** ** Plugin metadata, continued *)

Section MetadataExtras.
Import Py Metadata MetadataSpec.
Variable to_camel_case : string → string.
Implicit Types (fs : gmap string file) (plugin_folder : string).

(** X10: [get_plugin_metadata] raises exactly when the descriptor parses
    to JSON that is not an object (a list, a string, a number, [null]):
    the [AttributeError] of the first [.get] is not caught.  A missing or
    unparseable descriptor never makes it raise. *)
Theorem get_plugin_metadata_raises_iff fs plugin_folder (e : exn) :
  get_plugin_metadata to_camel_case fs plugin_folder = Raises e ↔
  e = AttributeError
  ∧ ∃ j, fs !! os_path_join plugin_folder ["plugin.json"] = Some (Json j)
      ∧ ∀ doc, j ≠ JObj doc.
Proof.
  unfold get_plugin_metadata, load_descriptor.
  change plugin_json_metadata_file_name with "plugin.json".
  destruct (fs !! os_path_join plugin_folder ["plugin.json"]) as [[|j]|].
  - split; [done|]. by intros [_ (j & ? & _)].
  - destruct j as [| b | z | s | l | doc].
    1-5: split; [intros [= <-]; split; [done|]; eexists; by split
                | by intros [-> _]].
    split; [done|]. intros [_ (j & [= <-] & Hnot)]. by destruct (Hnot doc).
  - split; [done|]. by intros [_ (j & ? & _)].
Qed.

(** X11: the metadata has the nine keys [id], [name], [description],
    [author_name], [author_url], [plugin_url], [tags], [thumb] and
    [version], and no other.  When the file [plugin.json] of the folder
    holds a JSON object, each of the eight fields other than [id] that the
    object has is handed on as it is, whatever its JSON type, the fields
    it lacks get their defaults, and its further keys are dropped, an
    ["id"] among them included.  Without such a file, or with one that
    does not parse, every field has its default. *)
Theorem get_plugin_metadata_fields fs plugin_folder :
  let plugin_id := os_path_basename (os_path_normpath plugin_folder) in
  let descriptor := fs !! os_path_join plugin_folder ["plugin.json"] in
  (∀ meta, get_plugin_metadata to_camel_case fs plugin_folder = Returns meta →
     dom meta = list_to_set ("id" :: descriptor_fields))
  ∧ (∀ data, descriptor = Some (Json (JObj data)) →
     ∃ meta, get_plugin_metadata to_camel_case fs plugin_folder = Returns meta
       ∧ meta !! "id" = Some (JStr plugin_id)
       ∧ (∀ k v, k ∈ descriptor_fields → data !! k = Some v →
            meta !! k = Some v)
       ∧ (data !! "author_name" = None →
          meta !! "author_name" = Some (JStr "Unknown author"))
       ∧ (data !! "author_url" = None → meta !! "author_url" = Some (JStr ""))
       ∧ (data !! "plugin_url" = None → meta !! "plugin_url" = Some (JStr ""))
       ∧ (data !! "tags" = None → meta !! "tags" = Some (JStr "unknown"))
       ∧ (data !! "thumb" = None → meta !! "thumb" = Some (JStr "")))
  ∧ (descriptor = None ∨ descriptor = Some Garbage →
     get_plugin_metadata to_camel_case fs plugin_folder =
       Returns {[ "id" := JStr plugin_id;
                  "name" := JStr (to_camel_case plugin_id);
                  "description" := JStr default_description;
                  "author_name" := JStr "Unknown author";
                  "author_url" := JStr "";
                  "plugin_url" := JStr "";
                  "tags" := JStr "unknown";
                  "thumb" := JStr "";
                  "version" := JStr "0.0.1" ]}).
Proof.
  cbv zeta. unfold get_plugin_metadata, load_descriptor.
  change plugin_json_metadata_file_name with "plugin.json".
  split; [|split].
  - destruct (fs !! os_path_join plugin_folder ["plugin.json"])
      as [[|[| | | | |data]]|]; try discriminate.
    all: intros meta [= <-]; rewrite !dom_insert_L, dom_singleton_L;
      unfold descriptor_fields; cbn [list_to_set foldr]; set_solver.
  - intros data ->. eexists. split; [reflexivity|].
    split; [by simplify_map_eq|]. unfold dict_get. split.
    + intros k v Hk Hv. unfold descriptor_fields in Hk.
      repeat (apply elem_of_cons in Hk as [-> | Hk];
              [rewrite Hv; by simplify_map_eq |]).
      by apply elem_of_nil in Hk.
    + repeat split; intros ->; by simplify_map_eq.
  - intros [-> | ->]; reflexivity.
Qed.

End MetadataExtras.

(** ** Scanning plugins *)

Section PluginExists.
Import Py Plugins PluginsSpec.
Implicit Types (plugins : list (gmap string json)) (plugin_id : string).

Lemma has_id_spec plugin_id (p : gmap string json) :
  has_id plugin_id p ↔ p !! "id" = Some (JStr plugin_id).
Proof.
  unfold has_id. destruct (p !! "id") as [[| | |s| |]|]; try done.
  rewrite bool_decide_spec. split; [by intros -> | by intros [= ->]].
Qed.

Lemma found_plugins_spec plugins plugin_id :
  (Forall (λ p, is_Some (p !! "id")) plugins
   ∧ found_plugins plugins plugin_id =
       Returns (filter (λ p, has_id plugin_id p) plugins))
  ∨ ((∃ p, p ∈ plugins ∧ p !! "id" = None)
     ∧ found_plugins plugins plugin_id = Raises KeyError).
Proof.
  induction plugins as [|p rest IH]; [left; by split|].
  cbn [found_plugins]. destruct (p !! "id") as [v|] eqn:Hid.
  2:{ right. split; [|done]. exists p. split; [by left | done]. }
  destruct IH as [[Hall ->] | [(q & Hq & Hnone) ->]].
  - left. split; [constructor; [eexists; exact Hid | done]|].
    rewrite filter_cons.
    destruct (decide (has_id plugin_id p)) as [Hhas | Hnot].
    + apply has_id_spec in Hhas. rewrite Hid in Hhas. injection Hhas as ->.
      by rewrite bool_decide_eq_true_2.
    + rewrite has_id_spec, Hid in Hnot.
      destruct v as [| | |s| |]; try done.
      rewrite bool_decide_eq_false_2; [done | congruence].
  - right. split; [|done]. exists q. split; [by right | done].
Qed.

(** X12: [plugin_exists] raises [KeyError] exactly when some plugin dict
    has no ["id"]; otherwise it answers whether some plugin has the given
    id, the id being a string. *)
Theorem plugin_exists_spec plugins plugin_id :
  (plugin_exists plugins plugin_id = Raises KeyError ↔
   ∃ p, p ∈ plugins ∧ p !! "id" = None)
  ∧ (∀ e, plugin_exists plugins plugin_id = Raises e → e = KeyError)
  ∧ (∀ b, plugin_exists plugins plugin_id = Returns b →
     (b = true ↔ ∃ p, p ∈ plugins ∧ p !! "id" = Some (JStr plugin_id))).
Proof.
  unfold plugin_exists.
  destruct (found_plugins_spec plugins plugin_id)
    as [[Hall ->] | [(q & Hq & Hnone) ->]].
  - split; [|split].
    + split; [done|]. intros (p & Hp & Hnone).
      rewrite Forall_forall in Hall. destruct (Hall p Hp) as [? Hsome].
      by rewrite Hnone in Hsome.
    + done.
    + intros b [= <-]. rewrite bool_decide_eq_true. split.
      * intros Hlen.
        destruct (filter _ plugins) as [|p rest] eqn:Hf; [simpl in Hlen; lia|].
        assert (p ∈ filter (λ p, has_id plugin_id p) plugins)
          as [?%has_id_spec ?]%list_elem_of_filter by (rewrite Hf; by left).
        by exists p.
      * intros (p & Hp & Hid%has_id_spec).
        assert (p ∈ filter (λ p, has_id plugin_id p) plugins)
          as Hin by by apply list_elem_of_filter.
        destruct (filter _ plugins); [by apply elem_of_nil in Hin | simpl; lia].
  - split; [|split].
    + split; [eauto | done].
    + by intros e [= <-].
    + done.
Qed.

End PluginExists.

Section ScanFacts.
Import Py Memory Tools Plugins PluginsSpec.
Context {Disk Interp Hook Cat : Type}.
Variable glob : Disk → string → list string.
Variable files : Disk → gmap string file.
Variable import_tools :
  Disk → string → Interp → outcome (list (string * CatTool)) * Interp.
Variable sort_hooks : Interp → list Hook * Interp.
Variable augment_tool : Cat → CatTool → CatTool.
Variable to_camel_case : string → string.

Local Abbreviation find_plugin' :=
  (find_plugin glob files import_tools to_camel_case).
Local Abbreviation scan_folders' :=
  (scan_folders glob files import_tools to_camel_case).
Local Abbreviation find_plugins' :=
  (find_plugins glob files import_tools sort_hooks augment_tool to_camel_case).
Local Abbreviation metadata d folder :=
  (Metadata.get_plugin_metadata to_camel_case (files d) folder).
Local Abbreviation sources d folder :=
  (glob d (os_path_join folder ["**/*.py"])).
Implicit Types (w : World Disk Interp Hook Cat) (d : Disk) (it : Interp).

Lemma find_plugin_info d folder it info tls it' :
  find_plugin' d folder it = (Returns (info, tls), it') →
  match info with
  | Some meta => sources d folder ≠ [] ∧ metadata d folder = Returns meta
  | None => sources d folder = []
  end.
Proof.
  unfold find_plugin. case_bool_decide as Hlen.
  - destruct (metadata d folder) as [meta|e]; [|done].
    destruct (import_all _ _ _ _ _) as [[members|e] it2]; [|done].
    intros [= <- <- <-]. split; [|done].
    intros Hnil. rewrite Hnil in Hlen. simpl in Hlen. lia.
  - intros [= <- <- <-]. destruct (sources d folder); [done | simpl in Hlen; lia].
Qed.

(** The plugins a scan returns: one metadata dict for each folder that has
    source files, behind those it started with. *)
Lemma scan_folders_plugins d folders it ps tls ps' tls' it' :
  scan_folders' d folders it ps tls = (Returns (ps', tls'), it') →
  ∃ found, ps' = ps ++ found
    ∧ (∀ meta, meta ∈ found →
         ∃ folder, folder ∈ folders ∧ sources d folder ≠ []
           ∧ metadata d folder = Returns meta)
    ∧ (∀ folder, folder ∈ folders → sources d folder ≠ [] →
         ∃ meta, meta ∈ found ∧ metadata d folder = Returns meta).
Proof.
  revert it ps tls. induction folders as [|folder rest IH]; intros it ps tls.
  - intros [= <- <- <-]. exists []. rewrite app_nil_r.
    split; [done|]. split; [by intros ? ?%elem_of_nil | by intros ? ?%elem_of_nil].
  - cbn [scan_folders].
    destruct (find_plugin' d folder it) as [[[info members]|e] it1] eqn:Hfind;
      [|done].
    apply find_plugin_info in Hfind. intros Hscan.
    apply IH in Hscan as (found & -> & Hfrom & Hto).
    destruct info as [meta0|].
    + destruct Hfind as [Hsrc Hmeta]. exists (meta0 :: found).
      split; [by rewrite <- app_assoc|]. split.
      * intros meta [-> | Hin]%elem_of_cons.
        -- exists folder. split; [by left | done].
        -- destruct (Hfrom meta Hin) as (f & ? & ?). exists f.
           split; [by right | done].
      * intros f [-> | Hin]%elem_of_cons Hf.
        -- exists meta0. split; [by left | done].
        -- destruct (Hto f Hin Hf) as (meta & ? & ?). exists meta.
           split; [by right | done].
    + exists found. split; [done|]. split.
      * intros meta Hin. destruct (Hfrom meta Hin) as (f & ? & ?).
        exists f. split; [by right | done].
      * intros f [-> | Hin]%elem_of_cons Hf; [done | by apply Hto].
Qed.

Lemma get_plugin_metadata_id fs plugin_folder meta :
  Metadata.get_plugin_metadata to_camel_case fs plugin_folder = Returns meta →
  meta !! "id" =
    Some (JStr (Metadata.os_path_basename (Metadata.os_path_normpath plugin_folder))).
Proof.
  unfold Metadata.get_plugin_metadata.
  destruct (Metadata.load_descriptor fs _) as [| | | | |data]; try discriminate.
  intros [= <-]. by simplify_map_eq.
Qed.

Lemma log_plugin_names_ok ps :
  log_plugin_names ps = Returns tt →
  Forall (λ p, ∃ s, p !! "name" = Some (JStr s)) ps.
Proof.
  induction ps as [|p rest IH]; [done|]. simpl.
  destruct (p !! "name") as [[| | |s| |]|] eqn:Hname; try done.
  intros Hrest. constructor; [eauto | by apply IH].
Qed.

(** What a scan that returned has put into [self.plugins]. *)
Lemma find_plugins_returned w w' :
  find_plugins' w = (w', Returns tt) →
  ∃ ps tls it',
    scan_folders' (disk w)
      ("cat/mad_hatter/core_plugin/" :: glob (disk w) "cat/plugins/*/")
      (interp w) [] [] = (Returns (ps, tls), it')
    ∧ log_plugin_names ps = Returns tt
    ∧ plugins (mad_hatter w') = ps.
Proof.
  unfold find_plugins.
  destruct (scan_folders' _ _ _ _ _) as [[[ps tls]|e] it1]; [|done].
  destruct (log_plugin_names ps) as [[]|e] eqn:Hlog; [|done].
  destruct (sort_hooks it1) as [hs it2]. intros [= <-].
  by exists ps, tls, it1.
Qed.

(** X14: after a scan that returned, [plugin_exists] does not raise, and
    it answers [True] exactly for the base names of the scanned folders
    (the built-in one and those under [cat/plugins]) that hold at least
    one source file. *)
Theorem find_plugins_plugin_exists w w' (plugin_id : string) :
  find_plugins glob files import_tools sort_hooks augment_tool to_camel_case w
    = (w', Returns tt) →
  ∃ b, plugin_exists (plugins (mad_hatter w')) plugin_id = Returns b
    ∧ (b = true ↔
       ∃ folder,
         folder ∈ "cat/mad_hatter/core_plugin/" :: glob (disk w) "cat/plugins/*/"
         ∧ sources (disk w) folder ≠ []
         ∧ Metadata.os_path_basename (Metadata.os_path_normpath folder)
           = plugin_id).
Proof.
  intros (ps & tls & it' & Hscan & _ & ->)%find_plugins_returned.
  apply scan_folders_plugins in Hscan as (found & -> & Hfrom & Hto).
  rewrite app_nil_l.
  destruct (found_plugins_spec found plugin_id)
    as [[Hall Hfound] | [(q & Hq & Hnone) _]].
  2:{ destruct (Hfrom q Hq) as (f & _ & _ & Hmeta).
      apply get_plugin_metadata_id in Hmeta. by rewrite Hnone in Hmeta. }
  unfold plugin_exists. rewrite Hfound. eexists. split; [done|].
  rewrite bool_decide_eq_true. split.
  - intros Hlen.
    destruct (filter _ found) as [|p rest] eqn:Hf; [simpl in Hlen; lia|].
    assert (p ∈ filter (λ p, has_id plugin_id p) found)
      as [Hid%has_id_spec Hin]%list_elem_of_filter by (rewrite Hf; by left).
    destruct (Hfrom p Hin) as (f & Hf1 & Hf2 & Hmeta).
    exists f. split; [done|]. split; [done|].
    apply get_plugin_metadata_id in Hmeta. rewrite Hmeta in Hid. by injection Hid.
  - intros (f & Hf1 & Hf2 & Hbase).
    destruct (Hto f Hf1 Hf2) as (meta & Hin & Hmeta).
    apply get_plugin_metadata_id in Hmeta. rewrite Hbase in Hmeta.
    assert (meta ∈ filter (λ p, has_id plugin_id p) found)
      as Hin' by (apply list_elem_of_filter; split; [by apply has_id_spec | done]).
    destruct (filter _ found); [by apply elem_of_nil in Hin' | simpl; lia].
Qed.

(** X15: every plugin a scan has loaded has a string id and a string name:
    a descriptor whose ["name"] is not a string makes the scan raise
    instead. *)
Theorem find_plugins_names_are_strings w w' :
  find_plugins glob files import_tools sort_hooks augment_tool to_camel_case w
    = (w', Returns tt) →
  Forall (λ p, ∃ id name, p !! "id" = Some (JStr id)
                 ∧ p !! "name" = Some (JStr name))
    (plugins (mad_hatter w')).
Proof.
  intros (ps & tls & it' & Hscan & Hlog & ->)%find_plugins_returned.
  apply scan_folders_plugins in Hscan as (found & -> & Hfrom & _).
  rewrite app_nil_l in *. apply log_plugin_names_ok in Hlog.
  rewrite Forall_forall in Hlog. apply Forall_forall. intros p Hp.
  destruct (Hlog p Hp) as [name Hname].
  destruct (Hfrom p Hp) as (f & _ & _ & Hmeta%get_plugin_metadata_id).
  eauto.
Qed.

End ScanFacts.

(** ** Tool embeddings, continued *)

Section SyncExtras.
Import Py Memory Tools ToolsSpec.
Variable embed : string → vector.
Variable now : Z.
Implicit Types (st : State) (ts : list CatTool) (store : list Point)
  (r : Point) (t : CatTool).

(** X17: [embed_tools] raises exactly when a stored record yields no text
    under [page_content].  The exception is that of reading the first such
    record: [TypeError] when that record has no payload, [KeyError] when
    its payload has no ["page_content"].  In that case the records were
    fetched and no other call was made on the store, which is left as it
    was: nothing is deleted, nothing embedded. *)
Theorem embed_tools_raises_iff st :
  let run := embed_tools embed now st in
  (run.2 = Returns tt ↔
   Forall (λ r, is_Some (page_content r)) (procedural st))
  ∧ (∀ e, run.2 = Raises e ↔
     ∃ before r after, procedural st = before ++ r :: after
       ∧ Forall (λ r', is_Some (page_content r')) before
       ∧ page_content r = None
       ∧ e = match payload r with
             | None => TypeError
             | Some _ => KeyError
             end)
  ∧ (∀ e, run.2 = Raises e →
     procedural run.1 = procedural st
     ∧ calls run.1 = calls st ++ [GetAllPoints]).
Proof.
  cbv zeta. rewrite embed_tools_spec.
  destruct (all_good (procedural st)) eqn:Hgood; cbn [fst snd procedural calls].
  - pose proof (all_good_true _ Hgood) as Hall.
    split; [done|]. split; [|done]. intros e. split; [done|].
    intros (before & r & after & Hstore & _ & Hnone & _).
    rewrite Hstore, Forall_app, Forall_cons in Hall.
    destruct Hall as (_ & [d Hd] & _). congruence.
  - destruct (records_outcome_bad _ Hgood) as (r & Hfirst & ->).
    split; [|split; [|done]].
    + split; [done|]. intros Hall%all_good_Forall. congruence.
    + intros e. split.
      * intros [= <-].
        apply first_bad_Some in Hfirst as (before & after & ? & ? & ?).
        by exists before, r, after.
      * intros (before & r' & after & Hstore & Hbefore & Hnone & ->).
        assert (first_bad (procedural st) = Some r') as Hfirst'
          by (apply first_bad_Some; by exists before, after).
        rewrite Hfirst in Hfirst'. by injection Hfirst' as ->.
Qed.

Lemma assign_fields v t :
  name (assign v t) = name t ∧ docstring (assign v t) = docstring t.
Proof. by destruct v. Qed.

Lemma finish_fields t :
  name (finish embed t) = name t ∧ docstring (finish embed t) = docstring t
  ∧ is_Some (embedding (finish embed t)).
Proof.
  unfold finish. destruct (truthy (embedding t)) eqn:Htruthy; simpl; [|eauto].
  split; [done|]. split; [done|]. by destruct (embedding t).
Qed.

Lemma tool_metadata_assign v t :
  tool_metadata now (assign v t) = tool_metadata now t.
Proof. by destruct v. Qed.

(** X18: [embed_tools] writes nothing into a tool but its embedding: the
    tools keep their number, order, names, descriptions and docstrings,
    whether the run returns or raises.  When it returns, every tool has
    an embedding. *)
Theorem embed_tools_embeds_every_tool st :
  let run := embed_tools embed now st in
  name <$> tools run.1 = name <$> tools st
  ∧ description <$> tools run.1 = description <$> tools st
  ∧ docstring <$> tools run.1 = docstring <$> tools st
  ∧ (run.2 = Returns tt →
     Forall (λ t, is_Some (embedding t)) (tools run.1)).
Proof.
  cbv zeta. rewrite embed_tools_spec.
  set (f := last_assigned (plugins_tools_index (tools st))
              (good_prefix (procedural st))).
  assert (∀ (g : CatTool → string),
            (∀ v t, g (assign v t) = g t) →
            g <$> imap (λ k t, assign (f k) t) (tools st) = g <$> tools st)
    as Himap.
  { intros g Hg. apply list_eq. intros k.
    rewrite !list_lookup_fmap, list_lookup_imap.
    destruct (tools st !! k); [|done]. simpl. by rewrite Hg. }
  assert (∀ (g : CatTool → string),
            (∀ v t, g (assign v t) = g t) → (∀ t, g (finish embed t) = g t) →
            g <$> (finish embed <$> imap (λ k t, assign (f k) t) (tools st))
            = g <$> tools st) as Hfinish.
  { intros g Hg Hg'. rewrite <- (Himap g Hg), <- list_fmap_compose.
    apply list_fmap_ext. intros _ t _. apply Hg'. }
  destruct (all_good (procedural st)) eqn:Hgood; cbn [fst snd tools].
  - split; [apply Hfinish; intros; [apply assign_fields | apply finish_fields]|].
    split; [apply Hfinish; intros;
            [apply description_assign | apply description_finish]|].
    split; [apply Hfinish; intros; [apply assign_fields | apply finish_fields]|].
    intros _. apply Forall_fmap, Forall_forall. intros t _. apply finish_fields.
  - split; [apply Himap; intros; apply assign_fields|].
    split; [apply Himap; intros; apply description_assign|].
    split; [apply Himap; intros; apply assign_fields |].
    destruct (records_outcome_bad _ Hgood) as (r & _ & ->). done.
Qed.

(** The collection after a run that returned: the records of current tools
    as they were, then the records added for the tools the first loop left
    without a usable embedding. *)
Lemma embed_tools_store st :
  Forall (λ r, is_Some (page_content r)) (procedural st) →
  NoDup (point_id <$> procedural st) →
  let ts1 := imap (λ k t, assign (last_assigned (plugins_tools_index (tools st))
                                    (procedural st) k) t) (tools st) in
  let kept := filter (λ r, ¬ matches_no_tool (tools st) r) (procedural st) in
  embed_tools embed now st =
    ({| tools := finish embed <$> ts1;
        procedural := kept ++ new_points embed now ts1 kept;
        calls := (embed_tools embed now st).1.(calls) |}, Returns tt).
Proof.
  intros Hgood Hids. cbv zeta.
  assert (filter (λ r, ¬ matches_no_tool (tools st) r) (procedural st)
          = filter (λ r, ¬ stale (plugins_tools_index (tools st)) r)
              (procedural st)) as ->.
  { apply list_filter_iff. intros r. by rewrite stale_matches_no_tool. }
  rewrite embed_tools_spec at 1.
  rewrite (embed_tools_spec embed now st) at 1.
  rewrite (all_good_Forall _ Hgood), (good_prefix_all _ Hgood).
  rewrite (kept_after_delete st Hids). done.
Qed.

(** X19: with unique ids and a description on every record, a sync never
    deletes or alters the record of a current tool: the records whose
    description is that of a tool stay, in their order.  What is added
    comes after them: each added record embeds the description of a
    current tool and is tagged with source ["tool"], the time, and the
    tool's name and docstring. *)
Theorem embed_tools_keeps_matched_records st :
  Forall (λ r, is_Some (page_content r)) (procedural st) →
  NoDup (point_id <$> procedural st) →
  ∃ added,
    procedural (embed_tools embed now st).1 =
      filter (λ r, ¬ matches_no_tool (tools st) r) (procedural st) ++ added
    ∧ Forall (λ r, ∃ t, t ∈ tools st
                ∧ page_content r = Some (description t)
                ∧ point_vector r = embed (description t)
                ∧ metadata r =
                    {[ "source" := JStr "tool"; "when" := JNum now;
                       "name" := JStr (name t);
                       "docstring" := JStr (docstring t) ]}) added.
Proof.
  intros Hgood Hids. rewrite (embed_tools_store st Hgood Hids).
  cbn [fst procedural]. eexists. split; [done|].
  generalize (filter (λ r, ¬ matches_no_tool (tools st) r) (procedural st)).
  set (f := last_assigned (plugins_tools_index (tools st)) (procedural st)).
  assert (∀ t1, t1 ∈ imap (λ k t, assign (f k) t) (tools st) →
            ∃ t, t ∈ tools st ∧ description t1 = description t
              ∧ tool_metadata now t1 = tool_metadata now t) as Hfrom.
  { intros t1 [k Hk]%list_elem_of_lookup_1. rewrite list_lookup_imap in Hk.
    destruct (tools st !! k) as [t|] eqn:Ht; [|done].
    simpl in Hk. injection Hk as <-. exists t.
    split; [by eapply list_elem_of_lookup_2|].
    split; [apply description_assign | apply tool_metadata_assign]. }
  revert Hfrom. generalize (imap (λ k t, assign (f k) t) (tools st)).
  clear. intros ts1. induction ts1 as [|t1 rest IH]; intros Hfrom store.
  - constructor.
  - cbn [new_points].
    assert (Forall (λ r, ∃ t, t ∈ tools st
              ∧ page_content r = Some (description t)
              ∧ point_vector r = embed (description t)
              ∧ metadata r = tool_metadata now t)
            (new_points embed now rest
               (if truthy (embedding t1) then store
                else store ++ [new_point embed now t1 store]))) as Hrest.
    { apply IH. intros t' Hin. apply Hfrom. by right. }
    destruct (truthy (embedding t1)); [done|].
    constructor; [|done].
    destruct (Hfrom t1) as (t & Hin & Hd & Hm); [by left|].
    exists t. unfold page_content, metadata, new_point. simpl.
    by rewrite Hd, Hm.
Qed.

End SyncExtras.

Section SyncEdges.
Import Py Memory Tools ToolsSpec.
Variable embed : string → vector.
Variable now : Z.
Implicit Types (st : State) (ts : list CatTool) (store : list Point)
  (r : Point) (t : CatTool).

Lemma delete_all store : delete (point_id <$> store) store = [].
Proof.
  unfold delete. apply filter_none, Forall_forall. intros r Hin Hnot.
  apply Hnot. by apply list_elem_of_fmap_2.
Qed.

(** X20: with no tool registered and a description on every stored
    record, a sync empties the collection: every record is stale, and if
    there is any, all ids go to the store in the one [delete] call;
    nothing is embedded. *)
Theorem embed_tools_without_tools st :
  tools st = [] →
  Forall (λ r, is_Some (page_content r)) (procedural st) →
  embed_tools embed now st =
    ({| tools := []; procedural := [];
        calls := calls st ++ [GetAllPoints]
                 ++ match procedural st with
                    | [] => []
                    | _ :: _ => [Delete (point_id <$> procedural st)]
                    end |}, Returns tt).
Proof.
  intros Htools Hgood. rewrite embed_tools_spec.
  rewrite (all_good_Forall _ Hgood), (good_prefix_all _ Hgood), Htools.
  assert (filter (λ r, stale (plugins_tools_index []) r) (procedural st)
          = procedural st) as ->.
  { apply filter_all. eapply Forall_impl; [exact Hgood|].
    intros r [d Hd]. unfold stale. by rewrite Hd. }
  cbn [imap fmap list_fmap new_points new_calls]. rewrite !app_nil_r.
  destruct (procedural st) as [|r rest] eqn:Hstore; [done|].
  rewrite bool_decide_eq_true_2 by (simpl; lia).
  by rewrite delete_all.
Qed.

Lemma new_calls_length ts store :
  length (new_calls embed now ts store) =
  2 * length (filter (λ t, ¬ truthy (embedding t)) ts).
Proof.
  revert store. induction ts as [|t rest IH]; intros store; [done|].
  cbn [new_calls]. rewrite filter_cons.
  destruct (truthy (embedding t)).
  - destruct (decide (¬ true)) as [H | _]; [destruct H; exact I | apply IH].
  - destruct (decide (¬ false)) as [_ | H]; [| destruct H; exact id].
    cbn [length]. rewrite IH. lia.
Qed.

(** X21: on an empty collection a sync deletes nothing and stores one
    record for each tool without a usable embedding, in the order of the
    tools, two calls ([add_texts], [retrieve]) for each; such a tool gets
    the embedding of its description, and a tool that came with a
    non-empty embedding keeps it and gets no record. *)
Theorem embed_tools_on_empty_store st :
  procedural st = [] →
  let run := embed_tools embed now st in
  run.2 = Returns tt
  ∧ tools run.1 = finish embed <$> tools st
  ∧ page_content <$> procedural run.1 =
      (Some ∘ description) <$> filter (λ t, ¬ truthy (embedding t)) (tools st)
  ∧ Forall (λ r, point_vector r = embed (default "" (page_content r)))
      (procedural run.1)
  ∧ ∃ later, calls run.1 = calls st ++ [GetAllPoints] ++ later
      ∧ Forall (λ c, is_delete c = false) later
      ∧ length later =
          2 * length (filter (λ t, ¬ truthy (embedding t)) (tools st)).
Proof.
  intros Hstore. cbv zeta. rewrite embed_tools_spec, Hstore.
  cbn [all_good forallb good_prefix filter list_filter fmap list_fmap length].
  rewrite bool_decide_eq_false_2 by lia. rewrite imap_assign_None.
  cbn [fst snd tools procedural calls app].
  split; [done|]. split; [done|]. split; [apply new_points_page_contents|].
  split.
  - apply Forall_forall. intros r (j & t & _ & _ & Hpc & Hv)%new_points_elem.
    by rewrite Hpc, Hv.
  - eexists. split; [by rewrite <- app_assoc|].
    split; [apply new_calls_no_delete | apply new_calls_length].
Qed.

(** X22: take tools with pairwise distinct descriptions and stored
    records with pairwise distinct ids, each with a description.  When
    several records carry the description of a tool, the last one fetched
    decides.  If its vector is not empty the tool gets that vector and no
    record is added for it.  If its vector is empty the tool counts as not
    embedded: it is embedded anew and exactly one record is added under
    its description, beside the old ones, which all stay.  No two added
    records share a description. *)
Theorem embed_tools_last_record_decides st k t before r after :
  NoDup (description <$> tools st) →
  NoDup (point_id <$> procedural st) →
  Forall (λ r, is_Some (page_content r)) (procedural st) →
  tools st !! k = Some t →
  procedural st = before ++ r :: after →
  page_content r = Some (description t) →
  Forall (λ r', page_content r' ≠ Some (description t)) after →
  ∃ added,
    procedural (embed_tools embed now st).1 =
      filter (λ r, ¬ matches_no_tool (tools st) r) (procedural st) ++ added
    ∧ tools (embed_tools embed now st).1 !! k =
        Some (set_embedding
                (Some (match point_vector r with
                       | [] => embed (description t)
                       | _ :: _ => point_vector r
                       end)) t)
    ∧ NoDup (page_content <$> added)
    ∧ match point_vector r with
      | [] => Exists (λ r', page_content r' = Some (description t)) added
      | _ :: _ => Forall (λ r', page_content r' ≠ Some (description t)) added
      end.
Proof.
  intros Hdescr Hids Hgood Hk Hstore Hpc Hafter.
  rewrite (embed_tools_store embed now st Hgood Hids).
  cbn [fst tools procedural]. eexists. split; [done|].
  set (idx := plugins_tools_index (tools st)).
  set (kept := filter _ (procedural st)).
  assert (idx !! description t = Some k) as Hidx
    by by apply plugins_tools_index_NoDup.
  assert (last_assigned idx (procedural st) k = Some (point_vector r)) as Hlast.
  { rewrite Hstore. rewrite last_assigned_app, last_assigned_cons.
    assert (last_assigned idx after k = None) as ->.
    { apply last_assigned_None. intros r' Hin Ht.
      rewrite Forall_forall in Hafter. apply (Hafter r' Hin).
      unfold target in Ht. destruct (page_content r') as [d'|]; [|done].
      simpl in Ht. apply plugins_tools_index_Some in Ht as (t' & Hk' & <- & _).
      congruence. }
    rewrite bool_decide_eq_true_2; [done|]. unfold target. by rewrite Hpc. }
  set (ts1 := imap _ (tools st)).
  assert (ts1 !! k = Some (set_embedding (Some (point_vector r)) t)) as Hk1.
  { unfold ts1. by rewrite list_lookup_imap, Hk, Hlast. }
  split; [|split].
  - rewrite list_lookup_fmap, Hk1. simpl. unfold finish. simpl.
    by destruct (point_vector r).
  - rewrite new_points_page_contents, list_fmap_compose.
    apply NoDup_fmap_2; [apply _|].
    eapply sublist_NoDup; [|apply fmap_sublist, sublist_filter].
    unfold ts1. by rewrite imap_assign_descriptions.
  - destruct (point_vector r) as [|x v] eqn:Hv.
    + destruct (new_points_for embed now ts1 kept k _ Hk1)
        as (r' & Hin & Hpc' & _); [done|].
      apply Exists_exists. exists r'. split; [done|]. by rewrite Hpc'.
    + apply Forall_forall.
      intros r' (j & t' & Hj & Hfalse & Hpc' & _)%new_points_elem Heq.
      rewrite Hpc' in Heq. injection Heq as Hd.
      assert (j = k) as ->.
      { eapply NoDup_lookup; [exact Hdescr | |].
        - assert (description <$> ts1 = description <$> tools st) as <-
            by apply imap_assign_descriptions.
          rewrite list_lookup_fmap, Hj. simpl. by rewrite Hd.
        - by rewrite list_lookup_fmap, Hk. }
      rewrite Hk1 in Hj. injection Hj as <-. simpl in Hfalse. done.
Qed.

End SyncEdges.

Section SyncStable.
Import Py Memory Tools ToolsSpec SyncSpec.
Variable embed : string → vector.
Variable now : Z.
Implicit Types (st : State) (ts : list CatTool) (store : list Point).

(** The ids handed out by the loop over the tools are new. *)
Lemma new_points_ids ts store :
  NoDup (point_id <$> store) →
  NoDup (point_id <$> (store ++ new_points embed now ts store)).
Proof.
  revert store. induction ts as [|t rest IH]; intros store Hids.
  - by rewrite app_nil_r.
  - cbn [new_points]. destruct (truthy (embedding t)); [by apply IH|].
    rewrite (cons_middle _ store), (assoc (++)).
    apply IH. rewrite fmap_app. apply NoDup_app. split; [done|]. split.
    + intros id (r & -> & Hin)%list_elem_of_fmap Hnew.
      apply list_elem_of_singleton in Hnew.
      by apply (fresh_id_fresh store r).
    + apply NoDup_singleton.
Qed.

(** X23: the conditions under which a sync leaves one record for each tool
    are kept by the sync itself, provided the embedder answers non-empty
    vectors: they hold again for the tools and the collection it leaves,
    hence after any number of syncs. *)
Theorem embed_tools_keeps_well_kept st :
  (∀ d, embed d ≠ []) →
  well_kept st →
  well_kept (embed_tools embed now st).1.
Proof.
  intros Hembed (Hdescr & Hids & Hpcs & Husable & Hstored).
  assert (Forall (λ r, is_Some (page_content r)) (procedural st)) as Hgood
    by (eapply Forall_impl; [exact Husable | by intros r [? _]]).
  rewrite embed_tools_spec.
  rewrite (all_good_Forall _ Hgood), (good_prefix_all _ Hgood).
  rewrite (kept_after_delete st Hids). cbn [fst].
  set (idx := plugins_tools_index (tools st)).
  set (ts1 := imap _ (tools st)).
  set (kept := filter _ (procedural st)).
  assert (description <$> (finish embed <$> ts1) = description <$> tools st)
    as Hdescr2.
  { rewrite finish_descriptions. apply imap_assign_descriptions. }
  assert (page_content <$> (kept ++ new_points embed now ts1 kept)
          ≡ₚ (Some ∘ description) <$> (finish embed <$> ts1)) as Hperm.
  { rewrite (list_fmap_compose description Some), finish_descriptions,
      <- list_fmap_compose.
    rewrite fmap_app, new_points_page_contents.
    unfold kept, ts1, idx.
    rewrite (kept_contents st Hdescr Hpcs Husable Hstored), <- fmap_app.
    by rewrite filter_app_complement. }
  unfold well_kept. cbn [tools procedural].
  split; [by rewrite Hdescr2|]. split; [|split; [|split]].
  - apply new_points_ids.
    eapply sublist_NoDup; [exact Hids | apply fmap_sublist, sublist_filter].
  - rewrite Hperm, list_fmap_compose, Hdescr2.
    apply NoDup_fmap_2; [apply _ | done].
  - apply Forall_app. split.
    + apply Forall_forall. intros r [_ Hin]%list_elem_of_filter.
      rewrite Forall_forall in Husable. by apply Husable.
    + apply Forall_forall. intros r (j & t & _ & _ & Hpc & Hv)%new_points_elem.
      rewrite Hpc, Hv. split; [eauto | apply Hembed].
  - apply Forall_forall. intros t Hin _. rewrite Hperm.
    by apply (list_elem_of_fmap_2 (Some ∘ description)).
Qed.

End SyncStable.

(** ** The guarded static files, continued *)

Section AuthStaticOutcome.
Import Py AuthStatic.
Context {Scope : Type}.
Variable request_headers : Scope → outcome (list (string * string)).
Variable check_api_key : option string → outcome (option string).
Variable static_files_call : Scope → outcome unit.

(** X24: the static file server is called exactly when the request could
    be built and the key check returned.  Then the call ends as the file
    server does; otherwise it ends with the exception of the step that
    raised, the key check's for a rejected key. *)
Theorem auth_static_serves_iff_key_accepted (scope : Scope) :
  let run := call request_headers check_api_key static_files_call scope in
  (ServeStatic scope ∈ run.1 ↔
   ∃ headers, request_headers scope = Returns headers
     ∧ is_return (check_api_key (headers_get headers "access_token")) = true)
  ∧ (ServeStatic scope ∈ run.1 → run.2 = static_files_call scope)
  ∧ (∀ e, request_headers scope = Raises e → run.2 = Raises e)
  ∧ (∀ headers e, request_headers scope = Returns headers →
       check_api_key (headers_get headers "access_token") = Raises e →
       run.2 = Raises e).
Proof.
  cbv zeta. unfold call.
  destruct (request_headers scope) as [headers | e0]; simpl.
  - destruct (check_api_key (headers_get headers "access_token"))
      as [k | e1] eqn:Hcheck; simpl.
    + split; [|split; [done | split; [done|]]].
      * split; [|intros _; set_solver].
        intros _. exists headers. by rewrite Hcheck.
      * intros ? ? [= <-]. by rewrite Hcheck.
    + split; [|split; [|split; [done|]]].
      * split.
        -- intros [=]%list_elem_of_singleton.
        -- intros (h & [= <-] & Hret). by rewrite Hcheck in Hret.
      * intros [=]%list_elem_of_singleton.
      * intros ? ? [= <-]. rewrite Hcheck. by intros [= <-].
  - split; [|split; [|split; [by intros ? [= <-] | done]]].
    + split; [by intros ?%elem_of_nil | by intros (? & ? & _)].
    + by intros ?%elem_of_nil.
Qed.

End AuthStaticOutcome.

(** ** The further properties on the sample inputs *)

Section ExtraSamples.
Import Py Memory Tools ToolsSpec SyncSpec Samples MoreSamples.

Lemma save_plugin_settings_without_document_witness :
  Settings.save_plugin_settings ∅ "foo" payload_settings =
    (∅, Returns (JObj payload_settings)).
Proof.
  apply (save_plugin_settings_without_document ∅ "foo" payload_settings).
  intros stored. by rewrite lookup_empty.
Defined.

Lemma save_plugin_settings_compose_witness :
  Settings.save_plugin_settings
    (Settings.save_plugin_settings settings_disk "foo" payload_settings).1
    "foo" switch_off =
  Settings.save_plugin_settings settings_disk "foo"
    (switch_off ∪ payload_settings).
Proof.
  exact (save_plugin_settings_compose settings_disk "foo" stored_settings
           payload_settings switch_off eq_refl).
Defined.

Lemma get_after_save_plugin_settings_witness :
  ∃ merged,
    (Settings.save_plugin_settings settings_disk "foo" payload_settings).2
      = Returns (JObj merged)
    ∧ Settings.get_plugin_settings
        (Settings.save_plugin_settings settings_disk "foo" payload_settings).1
        "foo" =
      Returns (JObj (match merged !! "active" with
                     | Some _ => merged
                     | None => <["active" := JBool false]> merged
                     end)).
Proof.
  exact (get_after_save_plugin_settings settings_disk "foo" stored_settings
           payload_settings eq_refl).
Defined.

Lemma get_plugin_settings_not_object_witness :
  Settings.get_plugin_settings list_settings_disk "foo" = Returns (JArr [JNum 1]).
Proof.
  apply (get_plugin_settings_not_object list_settings_disk "foo" (JArr [JNum 1]));
    [discriminate | reflexivity].
Defined.

Lemma get_plugin_metadata_fields_witness :
  ∃ meta,
    Metadata.get_plugin_metadata SampleDisk.camel described_disk
      "cat/plugins/foo/" = Returns meta
    ∧ dom meta = list_to_set ("id" :: MetadataSpec.descriptor_fields)
    ∧ meta !! "id" = Some (JStr "foo")
    ∧ meta !! "name" = Some (JStr "Foo plugin")
    ∧ meta !! "tags" = Some (JArr [JStr "demo"])
    ∧ meta !! "author_name" = Some (JStr "Unknown author")
    ∧ meta !! "thumb" = Some (JStr "")
    ∧ meta !! "license" = None.
Proof.
  destruct (get_plugin_metadata_fields SampleDisk.camel described_disk
              "cat/plugins/foo/") as (Hdom & Hdata & _).
  destruct (Hdata foo_descriptor eq_refl)
    as (meta & Hrun & Hid & Hpass & Hauthor & _ & _ & _ & Hthumb).
  exists meta. split; [exact Hrun|]. split; [exact (Hdom meta Hrun)|].
  split; [exact Hid|].
  split; [apply Hpass; [compute_done | reflexivity]|].
  split; [apply Hpass; [compute_done | reflexivity]|].
  split; [apply Hauthor; reflexivity|]. split; [apply Hthumb; reflexivity|].
  apply not_elem_of_dom. rewrite (Hdom meta Hrun). compute_done.
Defined.

Lemma sample_scan_returned :
  Plugins.find_plugins SampleDisk.glob SampleDisk.files SampleDisk.import_tools
    SampleDisk.sort_hooks SampleDisk.augment_tool SampleDisk.camel
    SampleDisk.blank = (SampleDisk.scanned, Returns tt).
Proof. vm_compute. reflexivity. Defined.

Lemma find_plugins_plugin_exists_witness :
  ∃ b,
    Plugins.plugin_exists
      (Plugins.plugins (Plugins.mad_hatter SampleDisk.scanned)) "core_plugin"
      = Returns b
    ∧ (b = true ↔
       ∃ folder,
         folder ∈ "cat/mad_hatter/core_plugin/"
                  :: SampleDisk.glob (Plugins.disk SampleDisk.blank)
                       "cat/plugins/*/"
         ∧ SampleDisk.glob (Plugins.disk SampleDisk.blank)
             (os_path_join folder ["**/*.py"]) ≠ []
         ∧ Metadata.os_path_basename (Metadata.os_path_normpath folder)
           = "core_plugin").
Proof.
  exact (find_plugins_plugin_exists SampleDisk.glob SampleDisk.files
           SampleDisk.import_tools SampleDisk.sort_hooks
           SampleDisk.augment_tool SampleDisk.camel SampleDisk.blank
           SampleDisk.scanned "core_plugin" sample_scan_returned).
Defined.

Lemma find_plugins_names_are_strings_witness :
  Forall (λ p, ∃ id name, p !! "id" = Some (JStr id)
                 ∧ p !! "name" = Some (JStr name))
    (Plugins.plugins (Plugins.mad_hatter SampleDisk.scanned)).
Proof.
  exact (find_plugins_names_are_strings SampleDisk.glob SampleDisk.files
           SampleDisk.import_tools SampleDisk.sort_hooks
           SampleDisk.augment_tool SampleDisk.camel SampleDisk.blank
           SampleDisk.scanned sample_scan_returned).
Defined.

Lemma synced_once_good :
  Forall (λ r, is_Some (page_content r)) (procedural synced_once).
Proof. constructor; [eauto |]. constructor; [eauto |]. constructor. Defined.

Lemma synced_once_ids : NoDup (point_id <$> procedural synced_once).
Proof. compute_done. Defined.

Lemma embed_tools_keeps_matched_records_witness :
  ∃ added,
    procedural (embed_tools unit_embed 0 synced_once).1 =
      filter (λ r, ¬ matches_no_tool (tools synced_once) r)
        (procedural synced_once) ++ added
    ∧ Forall (λ r, ∃ t, t ∈ tools synced_once
                ∧ page_content r = Some (description t)
                ∧ point_vector r = unit_embed (description t)
                ∧ metadata r =
                    {[ "source" := JStr "tool"; "when" := JNum 0;
                       "name" := JStr (name t);
                       "docstring" := JStr (docstring t) ]}) added.
Proof.
  exact (embed_tools_keeps_matched_records unit_embed 0 synced_once
           synced_once_good synced_once_ids).
Defined.

Lemma embed_tools_without_tools_witness :
  embed_tools unit_embed 0 no_tools =
    ({| tools := []; procedural := [];
        calls := calls no_tools ++ [GetAllPoints]
                 ++ match procedural no_tools with
                    | [] => []
                    | _ :: _ => [Delete (point_id <$> procedural no_tools)]
                    end |}, Returns tt).
Proof.
  exact (embed_tools_without_tools unit_embed 0 no_tools eq_refl
           synced_once_good).
Defined.

Lemma embed_tools_on_empty_store_witness :
  let run := embed_tools unit_embed 0 fresh_start in
  run.2 = Returns tt
  ∧ tools run.1 = finish unit_embed <$> tools fresh_start
  ∧ page_content <$> procedural run.1 =
      (Some ∘ description)
        <$> filter (λ t, ¬ truthy (embedding t)) (tools fresh_start)
  ∧ Forall (λ r, point_vector r = unit_embed (default "" (page_content r)))
      (procedural run.1)
  ∧ ∃ later, calls run.1 = calls fresh_start ++ [GetAllPoints] ++ later
      ∧ Forall (λ c, is_delete c = false) later
      ∧ length later =
          2 * length (filter (λ t, ¬ truthy (embedding t)) (tools fresh_start)).
Proof.
  exact (embed_tools_on_empty_store unit_embed 0 fresh_start eq_refl).
Defined.

Lemma embed_tools_last_record_decides_witness :
  ∃ added,
    procedural (embed_tools unit_embed 0 doubled_record).1 =
      filter (λ r, ¬ matches_no_tool (tools doubled_record) r)
        (procedural doubled_record) ++ added
    ∧ tools (embed_tools unit_embed 0 doubled_record).1 !! 0 =
        Some (set_embedding (Some [8%Z]) search_web)
    ∧ NoDup (page_content <$> added)
    ∧ Forall (λ r', page_content r' ≠ Some (description search_web)) added.
Proof.
  apply (embed_tools_last_record_decides unit_embed 0 doubled_record 0
           search_web
           [point 1 [9%Z] "search_web(query) - search the web"]
           (point 2 [8%Z] "search_web(query) - search the web") []).
  - compute_done.
  - compute_done.
  - constructor; [eauto |]. constructor; [eauto |]. constructor.
  - reflexivity.
  - reflexivity.
  - reflexivity.
  - constructor.
Defined.

Lemma embed_tools_keeps_well_kept_witness :
  well_kept (embed_tools unit_embed 0 synced_once).1.
Proof.
  apply (embed_tools_keeps_well_kept unit_embed 0 synced_once).
  - intros d. discriminate.
  - split; [compute_done|]. split; [compute_done|]. split; [compute_done|].
    split.
    + constructor; [split; [eauto | discriminate] |].
      constructor; [split; [eauto | discriminate] |]. constructor.
    + constructor; [intros [] |]. constructor; [intros [] |]. constructor.
Defined.

End ExtraSamples.
